(** * nats-top: sampler, sort policy, history buffers and input machine

    A shallow embedding of [nats-top.go] (package [main]): the polling
    goroutine [monitorStats], the report builder [generateParagraph], the
    chart updater [update] and the key-event loop of [StartUI].

    Conventions.
    - Go's [int] and [int64] are 64-bit two's complement integers: values are
      [Z], and every arithmetic result goes through [wrap64].
    - [float64] is Rocq's primitive binary64 [float].
    - A Go [string] is a sequence of bytes: Rocq's [string].
    - [opts], a [map[string]interface{}], is a [gmap string Value]; a missing
      key reads as [None] (Go's [nil] interface).
    - Goroutines and channels are sequentialised: a loop is a function from
      the list of what its iterations receive to the list of what they
      send or print. *)

From Stdlib Require Import ZArith List Lia Bool String Ascii Floats.
From Stdlib Require Import Sorting.Sorted Sorting.Permutation.
From stdpp Require Import base gmap strings.
Import ListNotations.

Local Open Scope string_scope.
Local Open Scope Z_scope.

#[local] Set Warnings "-inexact-float".

(* ------------------------------------------------------------------ *)
(** ** Machine numbers *)

Definition minInt64 : Z := - 2 ^ 63.
Definition maxInt64 : Z := 2 ^ 63 - 1.

(** Two's complement wrap-around of a 64-bit signed result. *)
Definition wrap64 (z : Z) : Z := (z + 2 ^ 63) mod 2 ^ 64 - 2 ^ 63.

Definition sub64 (a b : Z) : Z := wrap64 (a - b).
Definition mul64 (a b : Z) : Z := wrap64 (a * b).

Definition inInt64 (z : Z) : bool := (minInt64 <=? z) && (z <=? maxInt64).

(** [float64(x)] for an [int64] (or [int]) [x]: the nearest binary64. *)
Definition float64_of_int (z : Z) : float :=
  if z =? minInt64
  then PrimFloat.opp (PrimFloat.of_uint63 (Uint63.of_Z (2 ^ 62)) * 2)%float
  else if 0 <=? z then PrimFloat.of_uint63 (Uint63.of_Z z)
  else PrimFloat.opp (PrimFloat.of_uint63 (Uint63.of_Z (- z))).

(** [int(f)] and [int64(f)] for a [float64] [f]: the fraction is discarded
    (truncation towards zero).  Go leaves the result of a value that does
    not fit (NaN and the infinities included) to the implementation; on
    amd64 the conversion instruction gives the smallest [int64]. *)
Definition int_of_float64 (f : float) : Z :=
  match Prim2SF f with
  | S754_zero _ => 0
  | S754_finite s m e =>
      let mag := if 0 <=? e then Z.shiftl (Z.pos m) e
                 else Z.shiftr (Z.pos m) (- e) in
      let v := if s then - mag else mag in
      if inInt64 v then v else minInt64
  | _ => minInt64
  end.

(* ------------------------------------------------------------------ *)
(** ** Time *)

(** A [time.Time] is an instant in nanoseconds; a [time.Duration] is an
    [int64] count of nanoseconds. *)
Definition Second : Z := 1000000000.

(** [t.Sub(u)]: the duration [t - u], saturated at the ends of [int64]. *)
Definition Sub (t u : Z) : Z := Z.max minInt64 (Z.min maxInt64 (t - u)).

(** [d.Seconds()]: whole seconds plus the fraction, as the [time] package
    computes it ([float64(sec) + float64(nsec)/1e9]; releases of Go before
    1.9 multiply the nanoseconds by [1e-9] instead, which can differ in the
    last bit). *)
Definition Seconds (d : Z) : float :=
  (float64_of_int (Z.quot d Second)
   + float64_of_int (Z.rem d Second) / float64_of_int Second)%float.

(* ------------------------------------------------------------------ *)
(** ** Snapshot and rate records *)

Module Info.
Record t := mk { Version : string }.
End Info.

Module Options.
Record t := mk { MaxConn : Z }.
End Options.

(** [gnatsd.Varz]: the server vitals read by this program. *)
Module Varz.
Record t := mk {
  Info : option Info.t;
  Options : option Options.t;
  Uptime : string;
  Mem : Z;
  CPU : float;
  SlowConsumers : Z;
  InMsgs : Z;
  OutMsgs : Z;
  InBytes : Z;
  OutBytes : Z
}.
(** [&gnatsd.Varz{}] *)
Definition zero : t := mk None None "" 0 0%float 0 0 0 0 0.
End Varz.

(** [gnatsd.ConnInfo]: one connection, with the fields of a report row. *)
Module ConnInfo.
Record t := mk {
  Cid : Z;
  IP : string;
  Port : Z;
  NumSubs : Z;
  Pending : Z;
  OutMsgs : Z;
  InMsgs : Z;
  OutBytes : Z;
  InBytes : Z;
  Lang : string;
  Version : string
}.
End ConnInfo.

(** [gnatsd.Connz] *)
Module Connz.
Record t := mk { NumConns : Z; Conns : list ConnInfo.t }.
(** [&gnatsd.Connz{}] *)
Definition zero : t := mk 0 [].
End Connz.

Module Rates.
Record t := mk {
  InMsgsRate : float;
  OutMsgsRate : float;
  InBytesRate : float;
  OutBytesRate : float
}.
(** [&Rates{}] *)
Definition zero : t := mk 0%float 0%float 0%float 0%float.
End Rates.

Module Stats.
Record t := mk { Varz : Varz.t; Connz : Connz.t; Rates : Rates.t }.
Definition zero : t := mk Varz.zero Connz.zero Rates.zero.
End Stats.

(* ------------------------------------------------------------------ *)
(** ** Options *)

(** The dynamic values stored in [opts]: a [string] (host), an [int]
    (port, conns, delay) or a [gnatsd.SortOpt] (sort). *)
Inductive Value :=
| VString (s : string)
| VInt (n : Z)
| VSortOpt (s : string).

(** Modelled from the spec: the six sort keys, constants of the [util]
    package, which is not among the sources.  The spec names them by
    meaning (id, subscription count, outbound and inbound messages,
    outbound and inbound bytes); the spellings are those of the monitoring
    endpoint, of which ["cid"] is the default of the [-sort] flag. *)
Definition SortByCid : string := "cid".
Definition SortBySubs : string := "subs".
Definition SortByOutMsgs : string := "msgs_to".
Definition SortByInMsgs : string := "msgs_from".
Definition SortByOutBytes : string := "bytes_to".
Definition SortByInBytes : string := "bytes_from".

Definition validSortOpt (s : string) : bool :=
  String.eqb s SortByCid || String.eqb s SortBySubs
  || String.eqb s SortByOutMsgs || String.eqb s SortByInMsgs
  || String.eqb s SortByOutBytes || String.eqb s SortByInBytes.

(** What [main] reads from the command line, after [flag.Parse]. *)
Record Flags := mkFlags {
  host : string;
  port : Z;
  conns : Z;
  delay : Z;
  sortBy : string;
  showVersion : bool
}.

(** How a run of the process goes on or ends. *)
Inductive Outcome (A : Type) :=
| Running (a : A)
| Exit (code : Z)
| Panic.
Arguments Running {A} a.
Arguments Exit {A} code.
Arguments Panic {A}.

(** [log.Fatalf]: the message is logged and the process exits with 1. *)
Definition logFatalf {A : Type} : Outcome A := Exit 1.

(** [main], up to the start of the two loops: the options handed to
    [monitorStats] and [StartUI].  [uiInit] says whether [ui.Init]
    succeeded. *)
Definition main (f : Flags) (uiInit : bool) : Outcome (gmap string Value) :=
  if showVersion f then Exit 0
  else
    let opts : gmap string Value :=
      <["delay" := VInt (delay f)]>
        (<["conns" := VInt (conns f)]>
           (<["port" := VInt (port f)]>
              (<["host" := VString (host f)]> ∅))) in
    match opts !! "host", opts !! "port" with
    | Some _, Some _ =>
        let opts :=
          if validSortOpt (sortBy f)
          then <["sort" := VSortOpt (sortBy f)]> opts
          else opts in
        if uiInit then Running opts else Panic
    | _, _ => logFatalf
    end.

(* ------------------------------------------------------------------ *)
(** ** The sampler: [monitorStats] *)

(** What [Request] decodes on success. *)
Inductive Response :=
| RVarz (v : Varz.t)
| RConnz (c : Connz.t)
| ROther.

(** The pair [(result, err)] that [Request] returns. *)
Inductive Fetched :=
| Failed (err : string)
| Got (result : Response).

(** What one iteration of the loop meets: the options as they are when it
    reads them, the replies to its two requests, and the clock when it
    takes the time. *)
Record Cycle := mkCycle {
  optsNow : gmap string Value;
  varzReply : Fetched;
  connzReply : Fetched;
  now : Z
}.

(** The variables of [monitorStats] that live across iterations. *)
Record Sampler := mkSampler {
  pollTime : Z;
  first : bool;
  inMsgsLastVal : Z;
  outMsgsLastVal : Z;
  inBytesLastVal : Z;
  outBytesLastVal : Z;
  inMsgsRate : float;
  outMsgsRate : float;
  inBytesRate : float;
  outBytesRate : float
}.

(** The state on entry to the loop; [start] is the first [time.Now()]. *)
Definition initSampler (start : Z) : Sampler :=
  mkSampler start true 0 0 0 0 0%float 0%float 0%float 0%float.

(** One iteration: either the snapshot sent on [statsCh] (with the
    argument given to [time.Sleep] and the line written to standard error,
    if any) and the next state, or the end of the process. *)
Inductive Step :=
| Sent (slept : Z) (stderr : option string) (stats : Stats.t) (s : Sampler)
| Fatal (code : Z).

Definition setVarz (stats : Stats.t) (r : Response) : Stats.t :=
  match r with
  | RVarz v => Stats.mk v (Stats.Connz stats) (Stats.Rates stats)
  | _ => stats
  end.

Definition setConnz (stats : Stats.t) (r : Response) : Stats.t :=
  match r with
  | RConnz c => Stats.mk (Stats.Varz stats) c (Stats.Rates stats)
  | _ => stats
  end.

Definition cycle (s : Sampler) (c : Cycle) : Step :=
  match optsNow c !! "delay" with
  | Some (VInt val) =>
      let slept := mul64 val Second in
      let stats := Stats.zero in
      match varzReply c with
      | Failed err => Sent slept (Some ("could not get /varz: " +:+ err)) stats s
      | Got result =>
          let stats := setVarz stats result in
          match connzReply c with
          | Failed err =>
              Sent slept (Some ("could not get /connz: " +:+ err)) stats s
          | Got result =>
              let stats := setConnz stats result in
              let inMsgsVal := Varz.InMsgs (Stats.Varz stats) in
              let outMsgsVal := Varz.OutMsgs (Stats.Varz stats) in
              let inBytesVal := Varz.InBytes (Stats.Varz stats) in
              let outBytesVal := Varz.OutBytes (Stats.Varz stats) in
              let inMsgsDelta := sub64 inMsgsVal (inMsgsLastVal s) in
              let outMsgsDelta := sub64 outMsgsVal (outMsgsLastVal s) in
              let inBytesDelta := sub64 inBytesVal (inBytesLastVal s) in
              let outBytesDelta := sub64 outBytesVal (outBytesLastVal s) in
              let tdelta := Sub (now c) (pollTime s) in
              let rate (old : float) (delta : Z) : float :=
                if first s then old
                else (float64_of_int delta / Seconds tdelta)%float in
              let s' :=
                mkSampler (now c) false
                  inMsgsVal outMsgsVal inBytesVal outBytesVal
                  (rate (inMsgsRate s) inMsgsDelta)
                  (rate (outMsgsRate s) outMsgsDelta)
                  (rate (inBytesRate s) inBytesDelta)
                  (rate (outBytesRate s) outBytesDelta) in
              let stats :=
                Stats.mk (Stats.Varz stats) (Stats.Connz stats)
                  (Rates.mk (inMsgsRate s') (outMsgsRate s')
                     (inBytesRate s') (outBytesRate s')) in
              Sent slept None stats s'
          end
      end
  | _ => Fatal 1
  end.

(** The loop over the iterations that [cs] describes: the snapshots sent
    on [statsCh], in order, and the exit code if the loop ended. *)
Fixpoint monitorStats (s : Sampler) (cs : list Cycle)
  : list Stats.t * option Z :=
  match cs with
  | [] => ([], None)
  | c :: cs =>
      match cycle s c with
      | Sent _ _ stats s' =>
          let (sent, code) := monitorStats s' cs in (stats :: sent, code)
      | Fatal code => ([], Some code)
      end
  end.

Definition published (s : Sampler) (cs : list Cycle) : list Stats.t :=
  fst (monitorStats s cs).

(** The iteration gets as far as a request. *)
Definition delayIsInt (c : Cycle) : bool :=
  match optsNow c !! "delay" with Some (VInt _) => true | _ => false end.

Definition failed (r : Fetched) : bool :=
  match r with Failed _ => true | Got _ => false end.

(** Both requests of the iteration return without an error. *)
Definition fetchesSucceed (c : Cycle) : bool :=
  delayIsInt c && negb (failed (varzReply c)) && negb (failed (connzReply c)).

(** The first request fails, or it succeeds and the second one fails. *)
Definition fetchFails (c : Cycle) : bool :=
  delayIsInt c && (failed (varzReply c) || failed (connzReply c)).

(* ------------------------------------------------------------------ *)
(** ** The sort policy *)

(** The [Less] method of a [sort.Interface] over a slice of connections,
    lifted from the two indices to the elements they hold. *)
Definition Less : Type := ConnInfo.t -> ConnInfo.t -> bool.

(** Modelled from the spec: the sort adapters of the [util] package, which
    is not among the sources; each one compares one field, the one that its
    sort key names in the spec. *)
Definition ByCid : Less := fun a b => ConnInfo.Cid a <? ConnInfo.Cid b.
Definition BySubs : Less := fun a b => ConnInfo.NumSubs a <? ConnInfo.NumSubs b.
Definition ByMsgsTo : Less := fun a b => ConnInfo.OutMsgs a <? ConnInfo.OutMsgs b.
Definition ByMsgsFrom : Less := fun a b => ConnInfo.InMsgs a <? ConnInfo.InMsgs b.
Definition ByBytesTo : Less := fun a b => ConnInfo.OutBytes a <? ConnInfo.OutBytes b.
Definition ByBytesFrom : Less := fun a b => ConnInfo.InBytes a <? ConnInfo.InBytes b.

(** Go's package [sort].  [Sort] calls only [Len], [Less] and [Swap], and
    promises an ascending order for [Less], not a stable one.  On a short
    slice (six elements or fewer, in every release of Go) it is the
    package's [insertionSort], which is the algorithm embedded here; on a
    longer slice the package adds other passes (shell sort, quicksort,
    heapsort), whose result can differ from this one only in the order of
    elements that [Less] does not tell apart. *)
Module sort.

(** [Reverse]: [Less(i, j)] of the result is [Less(j, i)]. *)
Definition Reverse (less : Less) : Less := fun a b => less b a.

(** The inner loop of [insertionSort]: [x], at index [j], is swapped with
    its left neighbour while it is less than it.  [before] holds the
    elements to the left of [x], the nearest first, and the result is in
    the same order. *)
Fixpoint sink (less : Less) (x : ConnInfo.t) (before : list ConnInfo.t)
  : list ConnInfo.t :=
  match before with
  | [] => [x]
  | y :: rest => if less x y then y :: sink less x rest else x :: before
  end.

(** The outer loop: the elements enter from left to right. *)
Definition insertionSort (less : Less) (data : list ConnInfo.t)
  : list ConnInfo.t :=
  rev (fold_left (fun before x => sink less x before) data []).

Definition Sort (less : Less) (data : list ConnInfo.t) : list ConnInfo.t :=
  insertionSort less data.

End sort.

(** The [switch opts["sort"]] of [generateParagraph]: what the in-place
    sort leaves in [stats.Connz.Conns]. *)
Definition sortConns (opts : gmap string Value) (conns : list ConnInfo.t)
  : list ConnInfo.t :=
  match opts !! "sort" with
  | Some (VSortOpt k) =>
      if String.eqb k SortByCid then sort.Sort ByCid conns
      else if String.eqb k SortBySubs then sort.Sort (sort.Reverse BySubs) conns
      else if String.eqb k SortByOutMsgs then sort.Sort (sort.Reverse ByMsgsTo) conns
      else if String.eqb k SortByInMsgs then sort.Sort (sort.Reverse ByMsgsFrom) conns
      else if String.eqb k SortByOutBytes then sort.Sort (sort.Reverse ByBytesTo) conns
      else if String.eqb k SortByInBytes then sort.Sort (sort.Reverse ByBytesFrom) conns
      else conns
  | _ => conns
  end.

(* ------------------------------------------------------------------ *)
(** ** The report: [generateParagraph] *)

(** The text of the report, kept as the values that [fmt.Sprintf] prints,
    in the order in which it prints them; the counters go through [Psize]
    and the verbs of the format on their way to the screen.  [rows] holds
    one connection per table line, first line first. *)
Record Paragraph := mkParagraph {
  serverVersion : string;
  uptime : string;
  cpu : float;
  mem : Z;
  slowConsumers : Z;
  inMsgs : Z;
  inBytes : Z;
  inMsgsRateShown : float;
  inBytesRateShown : Z;
  outMsgs : Z;
  outBytes : Z;
  outMsgsRateShown : float;
  outBytesRateShown : Z;
  numConns : Z;
  rows : list ConnInfo.t
}.

(** [generateParagraph] returns the text; [stats] is a pointer, and the
    snapshot as the call leaves it is the second component. *)
Definition generateParagraph (opts : gmap string Value) (stats : Stats.t)
  : Paragraph * Stats.t :=
  let varz := Stats.Varz stats in
  let rates := Stats.Rates stats in
  let version :=
    match Varz.Info varz with Some i => Info.Version i | None => "" end in
  let sorted := sortConns opts (Connz.Conns (Stats.Connz stats)) in
  let stats' :=
    Stats.mk varz (Connz.mk (Connz.NumConns (Stats.Connz stats)) sorted) rates in
  (mkParagraph version (Varz.Uptime varz) (Varz.CPU varz)
     (Varz.Mem varz) (Varz.SlowConsumers varz)
     (Varz.InMsgs varz) (Varz.InBytes varz)
     (Rates.InMsgsRate rates) (int_of_float64 (Rates.InBytesRate rates))
     (Varz.OutMsgs varz) (Varz.OutBytes varz)
     (Rates.OutMsgsRate rates) (int_of_float64 (Rates.OutBytesRate rates))
     (Connz.NumConns (Stats.Connz stats))
     (Connz.Conns (Stats.Connz stats')),
   stats').

(* ------------------------------------------------------------------ *)
(** ** The chart histories: [update] *)

(** [data[lo:hi]], for [lo <= hi <= len(data)]. *)
Definition slice {A : Type} (lo hi : nat) (data : list A) : list A :=
  skipn lo (firstn hi data).

(** The three lines that every series goes through: [append], then the
    test on the length and the reslicing. *)
Definition push {A : Type} (data : list A) (x : A) : list A :=
  let data := (data ++ [x])%list in
  if (150 <? List.length data)%nat then slice 1 150 data else data.

(** The widgets, as far as [update] writes them. *)
Record Charts := mkCharts {
  parText : Paragraph;
  cpuPercent : Z;
  connsLabel : Z * Z;
  connsData : list float;
  memData : list float;
  inMsgsData : list Z;
  inBytesData : list Z;
  outMsgsData : list Z;
  outBytesData : list Z
}.

(** The widgets as [StartUI] builds them.  The sparkline of the inbound
    message rate is copied into its box before its [Data] is set, so the
    box starts with no sample; every other series starts with one zero. *)
Definition initCharts (opts : gmap string Value) : Charts :=
  mkCharts (fst (generateParagraph opts Stats.zero)) 0 (0, 0)
    [0%float] [0%float] [] [0] [0] [0].

(** One iteration of [update]: the snapshot received from [statsCh] is
    written into the widgets (and a redraw is signalled). *)
Definition update (opts : gmap string Value) (ch : Charts) (stats : Stats.t)
  : Charts :=
  let varz := Stats.Varz stats in
  let rates := Stats.Rates stats in
  let numConns := Connz.NumConns (Stats.Connz stats) in
  let maxConn :=
    match Varz.Options varz with Some o => Options.MaxConn o | None => 0 end in
  mkCharts
    (fst (generateParagraph opts stats))
    (int_of_float64 (Varz.CPU varz))
    (numConns, maxConn)
    (push (connsData ch) (float64_of_int numConns))
    (push (memData ch) (float64_of_int (Z.quot (Z.quot (Varz.Mem varz) 1024) 1024)))
    (push (inMsgsData ch) (int_of_float64 (Rates.InMsgsRate rates)))
    (push (inBytesData ch) (int_of_float64 (Rates.InBytesRate rates)))
    (push (outMsgsData ch) (int_of_float64 (Rates.OutMsgsRate rates)))
    (push (outBytesData ch) (int_of_float64 (Rates.OutBytesRate rates))).

(** The loop of [update] over the snapshots it receives; [opts] is read
    anew for each of them. *)
Definition updates (ch : Charts) (received : list (gmap string Value * Stats.t))
  : Charts :=
  fold_left (fun ch r => update (fst r) ch (snd r)) received ch.

(* ------------------------------------------------------------------ *)
(** ** The key-event loop of [StartUI] *)

Inductive EventType := EventKey | EventResize | EventMouse | EventError.

(** A terminal event: its type, the key code of a special key and the
    character of a character key (zero when the key has none). *)
Record Event := mkEvent { EvType : EventType; Key : Z; Ch : Z }.

Definition KeyBackspace : Z := 8.
Definition KeyEnter : Z := 13.
Definition KeySpace : Z := 32.
Definition KeyBackspace2 : Z := 127.

Definition isKey (e : Event) : bool :=
  match EvType e with EventKey => true | _ => false end.

Definition byte (z : Z) : ascii := ascii_of_N (Z.to_N z).

(** [string(r)] for a rune [r]: its UTF-8 encoding, and the encoding of
    U+FFFD for a value that is not a valid code point. *)
Definition runeString (r : Z) : string :=
  if (r <? 0) || (1114111 <? r) || ((55296 <=? r) && (r <=? 57343))
  then String (byte 239) (String (byte 191) (String (byte 189) ""))
  else if r <? 128 then String (byte r) ""
  else if r <? 2048 then
    String (byte (Z.lor 192 (Z.shiftr r 6)))
      (String (byte (Z.lor 128 (Z.land r 63))) "")
  else if r <? 65536 then
    String (byte (Z.lor 224 (Z.shiftr r 12)))
      (String (byte (Z.lor 128 (Z.land (Z.shiftr r 6) 63)))
         (String (byte (Z.lor 128 (Z.land r 63))) ""))
  else
    String (byte (Z.lor 240 (Z.shiftr r 18)))
      (String (byte (Z.lor 128 (Z.land (Z.shiftr r 12) 63)))
         (String (byte (Z.lor 128 (Z.land (Z.shiftr r 6) 63)))
            (String (byte (Z.lor 128 (Z.land r 63))) ""))).

(** [s[:len(s)-1]] *)
Definition dropLast (s : string) : string :=
  String.substring 0 (String.length s - 1) s.

(** [fmt.Sscanf(s, "%d", &n)]: space is skipped, then an optional sign
    and at least one decimal digit are read, as many digits as there are;
    what follows is left unread.  [None] is an error (a newline in the
    space, no digit, or a number that does not fit). *)
Definition code (c : ascii) : Z := Z.of_N (N_of_ascii c).

(** The space table of package [fmt], in UTF-8: the one-byte members
    (tab, vertical tab, form feed, carriage return and the blank; the line
    feed is treated apart), the two-byte members U+0085 and U+00A0, and the
    three-byte members U+1680, U+2000 to U+200A, U+2028, U+2029, U+202F,
    U+205F and U+3000. *)
Definition spaceByte (n : Z) : bool :=
  ((9 <=? n) && (n <=? 13)) || (n =? 32).

Definition spaceRune2 (a b : Z) : bool :=
  (a =? 194) && ((b =? 133) || (b =? 160)).

Definition spaceRune3 (a b c : Z) : bool :=
  ((a =? 225) && (b =? 154) && (c =? 128))
  || ((a =? 226) && (b =? 128)
      && (((128 <=? c) && (c <=? 138)) || (c =? 168) || (c =? 169) || (c =? 175)))
  || ((a =? 226) && (b =? 129) && (c =? 159))
  || ((a =? 227) && (b =? 128) && (c =? 128)).

(** [SkipSpace] of the scanner, for [Sscanf]: runes of the space table are
    skipped; a line feed is the error "unexpected newline" ([None]). *)
Fixpoint SkipSpace (s : string) : option string :=
  match s with
  | EmptyString => Some s
  | String c rest =>
      if code c =? 10 then None
      else if spaceByte (code c) then SkipSpace rest
      else
        match rest with
        | EmptyString => Some s
        | String d rest1 =>
            if spaceRune2 (code c) (code d) then SkipSpace rest1
            else
              match rest1 with
              | EmptyString => Some s
              | String e rest2 =>
                  if spaceRune3 (code c) (code d) (code e) then SkipSpace rest2
                  else Some s
              end
        end
  end.

Definition digitOf (c : ascii) : option Z :=
  let n := Z.of_N (N_of_ascii c) in
  if (48 <=? n) && (n <=? 57) then Some (n - 48) else None.

Fixpoint scanDigits (s : string) (acc : option Z) : option Z :=
  match s with
  | String c rest =>
      match digitOf c with
      | Some d => scanDigits rest (Some (10 * default 0 acc + d))
      | None => acc
      end
  | EmptyString => acc
  end.

Definition Sscanf_d (s : string) : option Z :=
  match SkipSpace s with
  | None => None
  | Some s =>
      let (neg, s) :=
        match s with
        | String c rest =>
            if Ascii.eqb c "-" then (true, rest)
            else if Ascii.eqb c "+" then (false, rest)
            else (false, s)
        | EmptyString => (false, s)
        end in
      match scanDigits s None with
      | Some n => let n := if neg then - n else n in
                  if inInt64 n then Some n else None
      | None => None
      end
  end.

(** What the loop writes to the terminal, by operation and with the values
    that each operation prints. *)
Inductive Effect :=
| ClearLine (blanks : nat)
| SortPrompt (sort : option Value) (buf : string)
| LimitPrompt (limit : option Value) (buf : string)
| SortHeader (sort : option Value)
| LimitHeader (limit : option Value)
| InvalidOrder (emptyPadding buf : string)
| Sleep (d : Z)
| SetRows (grid : string)
| Align
| Resize
| GoRedraw
| Render.

(** The variables that the loop and its goroutines share.  [spawned]
    counts the "invalid order" goroutines that have not printed yet,
    [asleep] those that have printed and sleep; [screen] lists what has
    been written so far. *)
Record UI := mkUI {
  opts : gmap string Value;
  viewMode : string;
  waitingSortOption : bool;
  waitingLimitOption : bool;
  optionBuf : string;
  spawned : nat;
  asleep : nat;
  screen : list Effect
}.

Definition initUI (o : gmap string Value) : UI :=
  mkUI o "top" false false "" 0 0 [].

Definition setOpts (o : gmap string Value) (st : UI) : UI :=
  mkUI o (viewMode st) (waitingSortOption st) (waitingLimitOption st)
    (optionBuf st) (spawned st) (asleep st) (screen st).
Definition setView (v : string) (st : UI) : UI :=
  mkUI (opts st) v (waitingSortOption st) (waitingLimitOption st)
    (optionBuf st) (spawned st) (asleep st) (screen st).
Definition setSort (b : bool) (st : UI) : UI :=
  mkUI (opts st) (viewMode st) b (waitingLimitOption st)
    (optionBuf st) (spawned st) (asleep st) (screen st).
Definition setLimit (b : bool) (st : UI) : UI :=
  mkUI (opts st) (viewMode st) (waitingSortOption st) b
    (optionBuf st) (spawned st) (asleep st) (screen st).
Definition setBuf (s : string) (st : UI) : UI :=
  mkUI (opts st) (viewMode st) (waitingSortOption st) (waitingLimitOption st)
    s (spawned st) (asleep st) (screen st).
Definition setNotices (n m : nat) (st : UI) : UI :=
  mkUI (opts st) (viewMode st) (waitingSortOption st) (waitingLimitOption st)
    (optionBuf st) n m (screen st).
Definition emit (e : Effect) (st : UI) : UI :=
  mkUI (opts st) (viewMode st) (waitingSortOption st) (waitingLimitOption st)
    (optionBuf st) (spawned st) (asleep st) (screen st ++ [e])%list.

(** [refreshOptionHeader]: the cursor goes to the prompt line and
    [18 + 2 + 2 * len(optionBuf)] blanks are printed over it. *)
Definition refreshOptionHeader (st : UI) : UI :=
  emit (ClearLine (18 + 2 + 2 * String.length (optionBuf st))) st.

(** The "Handle backspace" statement, the same in both prompts. *)
Definition lineEdit (st : UI) (e : Event) : UI :=
  if isKey e && (0 <? String.length (optionBuf st))%nat
     && ((Key e =? KeyBackspace) || (Key e =? KeyBackspace2))
  then refreshOptionHeader (setBuf (dropLast (optionBuf st)) st)
  else setBuf (optionBuf st +:+ runeString (Ch e)) st.

(** Whether a block of the loop body ends in [continue]. *)
Inductive Flow := Fallthrough | Continue.

(** [if waitingSortOption { ... }] *)
Definition sortPrompt (st : UI) (e : Event) : Flow * UI :=
  if waitingSortOption st then
    if isKey e && (Key e =? KeyEnter) then
      if validSortOpt (optionBuf st) then
        let st := setOpts (<["sort" := VSortOpt (optionBuf st)]> (opts st)) st in
        (Continue, setBuf "" (setSort false (refreshOptionHeader st)))
      else
        (Continue, setNotices (S (spawned st)) (asleep st) st)
    else
      let st := lineEdit st e in
      (Fallthrough, emit (SortPrompt (opts st !! "sort") (optionBuf st)) st)
  else (Fallthrough, st).

(** [if waitingLimitOption { ... }] *)
Definition limitPrompt (st : UI) (e : Event) : Flow * UI :=
  if waitingLimitOption st then
    if isKey e && (Key e =? KeyEnter) then
      let st :=
        match Sscanf_d (optionBuf st) with
        | Some n => setOpts (<["conns" := VInt n]> (opts st)) st
        | None => st
        end in
      (Continue, refreshOptionHeader (setBuf "" (setLimit false st)))
    else
      let st := lineEdit st e in
      (Fallthrough, emit (LimitPrompt (opts st !! "conns") (optionBuf st)) st)
  else (Fallthrough, st).

(** [if e.Type == ui.EventKey && e.Ch == 'o' && !waitingLimitOption] *)
Definition onO (st : UI) (e : Event) : UI :=
  if isKey e && (Ch e =? 111) && negb (waitingLimitOption st)
  then setSort true (emit (SortHeader (opts st !! "sort")) st)
  else st.

(** [if e.Type == ui.EventKey && e.Ch == 'n' && !waitingSortOption] *)
Definition onN (st : UI) (e : Event) : UI :=
  if isKey e && (Ch e =? 110) && negb (waitingSortOption st)
  then setLimit true (emit (LimitHeader (opts st !! "conns")) st)
  else st.

(** [if e.Type == ui.EventKey && e.Key == ui.KeySpace] *)
Definition onSpace (st : UI) (e : Event) : UI :=
  if isKey e && (Key e =? KeySpace) then
    let st :=
      if String.eqb (viewMode st) "top" then
        setLimit false
          (setSort false
             (setView "dashboard" (emit (SetRows "dashboard") (refreshOptionHeader st))))
      else if String.eqb (viewMode st) "dashboard" then
        setView "top" (emit (SetRows "top") st)
      else st in
    emit Align st
  else st.

(** [if e.Type == ui.EventResize] *)
Definition onResize (st : UI) (e : Event) : UI :=
  match EvType e with
  | EventResize =>
      let st := if String.eqb (viewMode st) "dashboard" then emit Resize st else st in
      emit GoRedraw (emit Align st)
  | _ => st
  end.

(** The body of [case e := <-evt]; ['q'] runs [cleanExit], which ends the
    process with status 0. *)
Definition handle (st : UI) (e : Event) : Outcome UI :=
  match sortPrompt st e with
  | (Continue, st) => Running st
  | (Fallthrough, st) =>
      match limitPrompt st e with
      | (Continue, st) => Running st
      | (Fallthrough, st) =>
          if isKey e && (Ch e =? 113) then Exit 0
          else Running (onResize (onSpace (onN (onO st e) e) e) e)
      end
  end.

(** The goroutine started on an invalid sort key, in two steps: it prints
    the notice, with the buffer as it is then; after its sleep of one
    second it leaves the prompt and clears the line and the buffer. *)
Definition noticeShows (st : UI) : UI :=
  match spawned st with
  | O => st
  | S n =>
      let emptyPadding :=
        if (String.length (optionBuf st) <? 5)%nat then "       " else "" in
      emit (InvalidOrder emptyPadding (optionBuf st))
        (setNotices n (S (asleep st)) st)
  end.

Definition noticeWakes (st : UI) : UI :=
  match asleep st with
  | O => st
  | S m =>
      let st := emit (Sleep (1 * Second)) (setNotices (spawned st) m st) in
      setBuf "" (refreshOptionHeader (setSort false st))
  end.

(** What the loop and its goroutines do next: the loop takes an event or
    a redraw signal, or a goroutine takes one of its two steps. *)
Inductive Input :=
| Ev (e : Event)
| Redraw
| NoticeShows
| NoticeWakes.

Definition step (st : UI) (i : Input) : Outcome UI :=
  match i with
  | Ev e => handle st e
  | Redraw => Running (emit Render st)
  | NoticeShows => Running (noticeShows st)
  | NoticeWakes => Running (noticeWakes st)
  end.

Fixpoint StartUI (st : UI) (inputs : list Input) : Outcome UI :=
  match inputs with
  | [] => Running st
  | i :: inputs =>
      match step st i with
      | Running st => StartUI st inputs
      | stop => stop
      end
  end.

(** The modes of the spec, read off the two flags. *)
Inductive InputMode := Normal | EnteringSort | EnteringLimit.

Definition inputMode (st : UI) : InputMode :=
  if waitingSortOption st then EnteringSort
  else if waitingLimitOption st then EnteringLimit
  else Normal.

(* ------------------------------------------------------------------ *)
(** ** Vocabulary of the properties *)

(** The rates that two consecutive successful samples call for: each
    counter's difference (an [int64] subtraction) over the seconds between
    the two clock readings. *)
Definition ratesBetween (prev cur : Varz.t) (tprev tcur : Z) : Rates.t :=
  let secs := Seconds (Sub tcur tprev) in
  Rates.mk
    (float64_of_int (sub64 (Varz.InMsgs cur) (Varz.InMsgs prev)) / secs)
    (float64_of_int (sub64 (Varz.OutMsgs cur) (Varz.OutMsgs prev)) / secs)
    (float64_of_int (sub64 (Varz.InBytes cur) (Varz.InBytes prev)) / secs)
    (float64_of_int (sub64 (Varz.OutBytes cur) (Varz.OutBytes prev)) / secs).

(** What an iteration fetched: the vitals that its first request returned
    and the connections that its second request returned (zero values when
    the result is of another type, as the type assertions leave them). *)
Definition fetchedVarz (c : Cycle) : Varz.t :=
  match varzReply c with Got (RVarz v) => v | _ => Varz.zero end.

Definition fetchedConnz (c : Cycle) : Connz.t :=
  match connzReply c with Got (RConnz z) => z | _ => Connz.zero end.

(** The sampler remembers the counters [prev], read at [tprev], as its
    baseline. *)
Definition tracks (s : Sampler) (prev : Varz.t) (tprev : Z) : Prop :=
  first s = false /\ pollTime s = tprev /\
  inMsgsLastVal s = Varz.InMsgs prev /\
  outMsgsLastVal s = Varz.OutMsgs prev /\
  inBytesLastVal s = Varz.InBytes prev /\
  outBytesLastVal s = Varz.OutBytes prev.

(** The field that sort key [k] orders the rows by. *)
Definition metricOf (k : string) (c : ConnInfo.t) : Z :=
  if String.eqb k SortBySubs then ConnInfo.NumSubs c
  else if String.eqb k SortByOutMsgs then ConnInfo.OutMsgs c
  else if String.eqb k SortByInMsgs then ConnInfo.InMsgs c
  else if String.eqb k SortByOutBytes then ConnInfo.OutBytes c
  else if String.eqb k SortByInBytes then ConnInfo.InBytes c
  else ConnInfo.Cid c.

(** The order of the rows under sort key [k], in the words of the spec:
    ascending for the id key, descending for the five others.
    [inOrder k a b] says that [a] may stand above [b]. *)
Definition inOrder (k : string) (a b : ConnInfo.t) : bool :=
  if String.eqb k SortByCid then metricOf k a <=? metricOf k b
  else metricOf k b <=? metricOf k a.

(** The same order with the spec's tie-break: of two connections with the
    same metric, the one with the smaller id stands above. *)
Definition inOrderThenId (k : string) (a b : ConnInfo.t) : bool :=
  inOrder k a b
  && (negb (metricOf k a =? metricOf k b) || (ConnInfo.Cid a <=? ConnInfo.Cid b)).

(** [x] agrees with [target] to the first decimal place. *)
Definition approx (x target : float) : bool :=
  PrimFloat.ltb (PrimFloat.abs (x - target)) 0.05%float.

(** The two prompts are never open together. *)
Definition exclusive (st : UI) : Prop :=
  waitingSortOption st && waitingLimitOption st = false.

(** No series is longer than the cap. *)
Definition bounded (ch : Charts) : Prop :=
  (List.length (connsData ch) <= 150)%nat /\
  (List.length (memData ch) <= 150)%nat /\
  (List.length (inMsgsData ch) <= 150)%nat /\
  (List.length (inBytesData ch) <= 150)%nat /\
  (List.length (outMsgsData ch) <= 150)%nat /\
  (List.length (outBytesData ch) <= 150)%nat.

(* ------------------------------------------------------------------ *)
(** ** Sample data *)

Definition sampleFlags : Flags := mkFlags "127.0.0.1" 8222 1024 1 "cid" false.


(** The options that [main] builds from [sampleFlags]. *)
Definition sampleOpts : gmap string Value :=
  <["sort" := VSortOpt "cid"]>
    (<["delay" := VInt 1]>
       (<["conns" := VInt 1024]>
          (<["port" := VInt 8222]> (<["host" := VString "127.0.0.1"]> ∅)))).

Definition varzWith (inMsgs outMsgs inBytes outBytes : Z) : Varz.t :=
  Varz.mk None None "1m" 0 0%float 0 inMsgs outMsgs inBytes outBytes.

Definition goodCycle (v : Varz.t) (t : Z) : Cycle :=
  mkCycle sampleOpts (Got (RVarz v)) (Got (RConnz Connz.zero)) t.

Definition badCycle (t : Z) : Cycle :=
  mkCycle sampleOpts (Failed "connection refused") (Failed "connection refused") t.

(** Two successful iterations, 1.02 seconds apart, with 500 messages in
    between. *)
Definition steadyRun : list Cycle :=
  [goodCycle (varzWith 100 80 4000 3000) 1000000000;
   goodCycle (varzWith 600 90 9000 3500) 2020000000].

(** A failed iteration, then a successful one whose inbound message
    counter has grown by 500 when the sampler measures 1.02 seconds. *)
Definition failThenSucceed : list Cycle :=
  [badCycle 1000000; goodCycle (varzWith 500 0 0 0) 1020000000].

(** A connection of client [cid] with [subs] subscriptions. *)
Definition conn (cid subs : Z) : ConnInfo.t :=
  ConnInfo.mk cid "10.0.0.1" 4222 subs 0 0 0 0 0 "go" "1.0".

Definition optsSortedBy (k : string) : gmap string Value :=
  <["sort" := VSortOpt k]> sampleOpts.

(** A snapshot that reports [n] connections. *)
Definition snapshotOf (n : Z) : Stats.t :=
  Stats.mk Varz.zero (Connz.mk n []) Rates.zero.

(** The numbers [0, 1, ..., n - 1]. *)
Definition upTo (n : nat) : list Z := map Z.of_nat (seq 0 n).

(** The key of character [ch], and a special key. *)
Definition charKey (ch : Z) : Event := mkEvent EventKey 0 ch.
Definition specialKey (key : Z) : Event := mkEvent EventKey key 0.

(* ------------------------------------------------------------------ *)
(** ** Vocabulary of the further properties *)

(** The snapshots of a run that come from its successful iterations. *)
Definition ofSuccesses (cs : list Cycle) (sent : list Stats.t) : list Stats.t :=
  map snd (List.filter (fun p => fetchesSucceed (fst p)) (combine cs sent)).

(** The bytes that the character keys [chars] put in the buffer. *)
Definition runes (chars : list Z) : string :=
  fold_right (fun c acc => runeString c +:+ acc) "" chars.

(** One key event for each of the characters [chars]. *)
Definition typed (chars : list Z) : list Input :=
  map (fun c => Ev (charKey c)) chars.

(** The number that the decimal digits [ds] write, and their keys. *)
Definition numeral (ds : list Z) : Z :=
  fold_left (fun acc d => 10 * acc + d) ds 0.

Definition digitKeys (ds : list Z) : list Z := map (fun d => 48 + d) ds.

(** The options are as [main] and the two prompts can leave them: an
    [int] delay, an [int] connection limit, and no sort key or one of the
    six. *)
Definition wellFormed (o : gmap string Value) : Prop :=
  (exists d, o !! "delay" = Some (VInt d)) /\
  (exists n, o !! "conns" = Some (VInt n)) /\
  match o !! "sort" with
  | None => True
  | Some (VSortOpt k) => validSortOpt k = true
  | Some _ => False
  end.

(** The three ways in which a step of the event loop can leave the
    options: as they are, with a new valid sort key, or with a new limit. *)
Inductive optsStep (o o' : gmap string Value) : Prop :=
| optsSame : o' = o -> optsStep o o'
| optsSort (k : string) :
    validSortOpt k = true -> o' = <["sort" := VSortOpt k]> o -> optsStep o o'
| optsLimit (n : Z) : o' = <["conns" := VInt n]> o -> optsStep o o'.

(** The samples that [update] takes from a snapshot for the connections
    chart, the memory chart and a rate chart. *)
Definition connsSample (stats : Stats.t) : float :=
  float64_of_int (Connz.NumConns (Stats.Connz stats)).

Definition memSample (stats : Stats.t) : float :=
  float64_of_int (Z.quot (Z.quot (Varz.Mem (Stats.Varz stats)) 1024) 1024).

Definition rateSample (rate : Rates.t -> float) (stats : Stats.t) : Z :=
  int_of_float64 (rate (Stats.Rates stats)).

(** The text that the notice goroutine prints once it has put the cursor
    at the start of the prompt line (["invalid order: %s%s"]). *)
Definition noticeText (emptyPadding buf : string) : string :=
  "invalid order: " +:+ emptyPadding +:+ buf.

(** [refreshOptionHeader] puts the cursor at the start of the same line
    and prints blanks.  [masked blanks text] says that [blanks] blanks hide
    all of [text]: what [text] has beyond them is blank itself. *)
Fixpoint masked (blanks : nat) (text : string) : bool :=
  match text with
  | EmptyString => true
  | String c rest =>
      match blanks with
      | O => Ascii.eqb c " " && masked O rest
      | S n => masked n rest
      end
  end.

(* ================================================================== *)
(** * Properties *)

(** ** Machine numbers *)

Lemma wrap64_small (z : Z) : minInt64 <= z <= maxInt64 -> wrap64 z = z.
Proof.
  unfold wrap64, minInt64, maxInt64. intros H.
  rewrite Z.mod_small by lia. lia.
Qed.

Lemma sub64_counters (a b : Z) :
  0 <= a <= maxInt64 -> 0 <= b <= maxInt64 -> sub64 a b = a - b.
Proof.
  unfold sub64. intros Ha Hb. apply wrap64_small.
  unfold minInt64, maxInt64 in *. lia.
Qed.

(** ** The sampler *)

Section Sampler.

Implicit Types (s : Sampler) (c : Cycle) (cs : list Cycle).

Lemma monitorStats_sent s c cs slept err stats s' :
  cycle s c = Sent slept err stats s' ->
  monitorStats s (c :: cs)
  = (stats :: fst (monitorStats s' cs), snd (monitorStats s' cs)).
Proof.
  intros H. simpl. rewrite H. destruct (monitorStats s' cs). reflexivity.
Qed.

Lemma published_sent s c cs slept err stats s' :
  cycle s c = Sent slept err stats s' ->
  published s (c :: cs) = stats :: published s' cs.
Proof.
  intros H. unfold published. rewrite (monitorStats_sent _ _ _ _ _ _ _ H).
  reflexivity.
Qed.

(** A successful iteration from a state that has a baseline. *)
Lemma cycle_tracks s c prev tprev :
  tracks s prev tprev -> fetchesSucceed c = true ->
  exists slept stats s',
    cycle s c = Sent slept None stats s' /\
    Stats.Rates stats = ratesBetween prev (Stats.Varz stats) tprev (now c) /\
    tracks s' (Stats.Varz stats) (now c).
Proof.
  intros (Hf & Hp & H1 & H2 & H3 & H4) Hok.
  unfold fetchesSucceed, delayIsInt in Hok. unfold cycle.
  destruct (optsNow c !! "delay") as [[ | val | ] | ]; try discriminate.
  destruct (varzReply c) as [ | rv]; try discriminate.
  destruct (connzReply c) as [ | rc]; try discriminate.
  do 3 eexists. split; [reflexivity | ].
  rewrite Hf, Hp, H1, H2, H3, H4. cbn.
  split; [reflexivity | repeat split].
Qed.

(** The first successful iteration: no rate is computed. *)
Lemma cycle_first s c :
  first s = true -> fetchesSucceed c = true ->
  exists slept stats s',
    cycle s c = Sent slept None stats s' /\
    Stats.Rates stats
    = Rates.mk (inMsgsRate s) (outMsgsRate s) (inBytesRate s) (outBytesRate s) /\
    tracks s' (Stats.Varz stats) (now c).
Proof.
  intros Hf Hok.
  unfold fetchesSucceed, delayIsInt in Hok. unfold cycle.
  destruct (optsNow c !! "delay") as [[ | val | ] | ]; try discriminate.
  destruct (varzReply c) as [ | rv]; try discriminate.
  destruct (connzReply c) as [ | rc]; try discriminate.
  do 3 eexists. split; [reflexivity | ].
  rewrite Hf. cbn. split; [reflexivity | repeat split].
Qed.

(** A run of successful iterations from a state that has a baseline. *)
Lemma published_tracks cs : forall s prev tprev,
  tracks s prev tprev -> forallb fetchesSucceed cs = true ->
  List.length (published s cs) = List.length cs /\
  (forall c st, cs !! 0%nat = Some c -> published s cs !! 0%nat = Some st ->
     Stats.Rates st = ratesBetween prev (Stats.Varz st) tprev (now c)) /\
  (forall k cprev ccur sprev scur,
     cs !! k = Some cprev -> cs !! S k = Some ccur ->
     published s cs !! k = Some sprev -> published s cs !! S k = Some scur ->
     Stats.Rates scur
     = ratesBetween (Stats.Varz sprev) (Stats.Varz scur) (now cprev) (now ccur)).
Proof.
  induction cs as [ | c cs IH]; intros s prev tprev Ht Hall.
  - repeat split; intros; discriminate.
  - simpl in Hall. apply andb_prop in Hall as [Hc Hall].
    destruct (cycle_tracks s c prev tprev Ht Hc) as (slept & stats & s' & E & Hr & Ht').
    rewrite (published_sent _ _ _ _ _ _ _ E).
    destruct (IH s' _ _ Ht' Hall) as (Hlen & Hhd & Hnext).
    split; [simpl; congruence | split].
    + intros c0 st H0 H1. simpl in H0, H1. congruence.
    + intros [ | k] cprev ccur sprev scur H1 H2 H3 H4; simpl in *.
      * injection H1 as <-. injection H3 as <-. eauto.
      * eauto.
Qed.

End Sampler.

Lemma cycle_succeeds (s : Sampler) (c : Cycle) :
  fetchesSucceed c = true ->
  exists slept stats s', cycle s c = Sent slept None stats s'.
Proof.
  unfold fetchesSucceed, delayIsInt, cycle. intros H.
  destruct (optsNow c !! "delay") as [[ | val | ] | ]; try discriminate.
  destruct (varzReply c); try discriminate.
  destruct (connzReply c); try discriminate.
  eauto.
Qed.

(** A successful iteration publishes what it fetched. *)
Lemma cycle_publishes_fetched (s s' : Sampler) (c : Cycle) (slept : Z)
    (err : option string) (stats : Stats.t) :
  fetchesSucceed c = true ->
  cycle s c = Sent slept err stats s' ->
  Stats.Varz stats = fetchedVarz c /\ Stats.Connz stats = fetchedConnz c.
Proof.
  unfold fetchesSucceed, delayIsInt, cycle, fetchedVarz, fetchedConnz. intros H.
  destruct (optsNow c !! "delay") as [[ | val | ] | ]; try discriminate.
  destruct (varzReply c) as [ | rv]; try discriminate.
  destruct (connzReply c) as [ | rc]; try discriminate.
  intros [= _ _ <- _]. destruct rv, rc; split; reflexivity.
Qed.

Lemma published_fetched (cs : list Cycle) : forall (s : Sampler) k c st,
  forallb fetchesSucceed cs = true ->
  cs !! k = Some c -> published s cs !! k = Some st ->
  Stats.Varz st = fetchedVarz c /\ Stats.Connz st = fetchedConnz c.
Proof.
  induction cs as [ | c0 cs IH]; intros s k c st Hall Hc Hst; [discriminate | ].
  simpl in Hall. apply andb_prop in Hall as [H0 Hall].
  destruct (cycle_succeeds s c0 H0) as (slept & stats & s' & E).
  rewrite (published_sent _ _ _ _ _ _ _ E) in Hst.
  destruct k as [ | k]; simpl in Hc, Hst.
  - injection Hc as <-. injection Hst as <-.
    exact (cycle_publishes_fetched _ _ _ _ _ _ H0 E).
  - exact (IH s' k c st Hall Hc Hst).
Qed.

(** C2. In a run in which every iteration's two requests succeed, every
    iteration publishes a snapshot and the loop is still running; each
    snapshot holds the vitals and the connections that its iteration
    fetched; the first snapshot carries four zero rates, and every later
    one carries, for each of the four counters, the [int64] difference
    between the counter that its iteration fetched and the counter that the
    iteration before it fetched, divided by the seconds between the clock
    readings of the two iterations.  The configured delay does not enter
    the quotient.  ([sub64_counters]: on counters that are not negative the
    [int64] difference is the plain one.) *)
Theorem rates_of_successful_run (start : Z) (cs : list Cycle) :
  forallb fetchesSucceed cs = true ->
  let sent := published (initSampler start) cs in
  snd (monitorStats (initSampler start) cs) = None /\
  List.length sent = List.length cs /\
  (forall k c st, cs !! k = Some c -> sent !! k = Some st ->
     Stats.Varz st = fetchedVarz c /\ Stats.Connz st = fetchedConnz c) /\
  (forall st, sent !! 0%nat = Some st -> Stats.Rates st = Rates.zero) /\
  (forall k cprev ccur scur,
     cs !! k = Some cprev -> cs !! S k = Some ccur -> sent !! S k = Some scur ->
     Stats.Rates scur
     = ratesBetween (fetchedVarz cprev) (fetchedVarz ccur) (now cprev) (now ccur)).
Proof.
  intros Hall sent. subst sent. split.
  { clear -Hall. generalize (initSampler start) as s.
    induction cs as [ | c cs IH]; intros s; [reflexivity | ].
    simpl in Hall. apply andb_prop in Hall as [Hc Hall].
    destruct (cycle_succeeds s c Hc) as (slept & stats & s' & E).
    rewrite (monitorStats_sent _ _ _ _ _ _ _ E). simpl. apply IH, Hall. }
  assert (forall k c st, cs !! k = Some c ->
            published (initSampler start) cs !! k = Some st ->
            Stats.Varz st = fetchedVarz c /\ Stats.Connz st = fetchedConnz c) as Hf.
  { intros k c st. apply published_fetched, Hall. }
  destruct cs as [ | c cs].
  - repeat split; intros; discriminate.
  - pose proof Hall as Hall0.
    simpl in Hall. apply andb_prop in Hall as [Hc Hall].
    destruct (cycle_first (initSampler start) c eq_refl Hc)
      as (slept & stats & s' & E & Hr & Ht).
    rewrite (published_sent _ _ _ _ _ _ _ E) in *.
    destruct (published_tracks cs s' _ _ Ht Hall) as (Hlen & Hhd & Hnext).
    split; [simpl; congruence | ]. split; [exact Hf | ]. split.
    + intros st H. simpl in H. injection H as <-. exact Hr.
    + intros k cprev ccur scur H1 H2 H4.
      assert (exists sprev, (stats :: published s' cs) !! k = Some sprev)
        as [sprev H3].
      { apply lookup_lt_is_Some. apply lookup_lt_Some in H1.
        simpl in *. lia. }
      destruct (Hf k cprev sprev H1 H3) as [<- _].
      destruct (Hf (S k) ccur scur H2 H4) as [<- _].
      destruct k as [ | k]; simpl in *.
      * injection H1 as <-. injection H3 as <-. eauto.
      * eauto.
Qed.

Lemma rates_of_successful_run_witness :
  forallb fetchesSucceed steadyRun = true /\
  (let sent := published (initSampler 0) steadyRun in
   snd (monitorStats (initSampler 0) steadyRun) = None /\
   List.length sent = List.length steadyRun /\
   (forall k c st, steadyRun !! k = Some c -> sent !! k = Some st ->
      Stats.Varz st = fetchedVarz c /\ Stats.Connz st = fetchedConnz c) /\
   (forall st, sent !! 0%nat = Some st -> Stats.Rates st = Rates.zero) /\
   (forall k cprev ccur scur,
      steadyRun !! k = Some cprev -> steadyRun !! S k = Some ccur ->
      sent !! S k = Some scur ->
      Stats.Rates scur
      = ratesBetween (fetchedVarz cprev) (fetchedVarz ccur) (now cprev) (now ccur)))
  /\
  map fetchedVarz steadyRun
  = [varzWith 100 80 4000 3000; varzWith 600 90 9000 3500].
Proof.
  split; [vm_compute; reflexivity | ]. split; [ | reflexivity].
  apply (rates_of_successful_run 0 steadyRun). vm_compute. reflexivity.
Defined.

(** The steady run, evaluated: 500 messages in 1.02 seconds. *)
Example steadyRun_rate :
  map (fun st => Rates.InMsgsRate (Stats.Rates st)) (published (initSampler 0) steadyRun)
  = [0%float; (float64_of_int 500 / Seconds 1020000000)%float]
  /\ approx (float64_of_int 500 / Seconds 1020000000) 490.2 = true.
Proof. vm_compute. split; reflexivity. Qed.

(** A failed iteration: the snapshot is sent as it stands and the
    variables of the loop are left alone. *)
Lemma cycle_fails (s : Sampler) (c : Cycle) :
  fetchFails c = true ->
  exists slept err stats,
    cycle s c = Sent slept (Some err) stats s /\
    Stats.Rates stats = Rates.zero /\
    Stats.Connz stats = Connz.zero /\
    (Stats.Varz stats = Varz.zero \/ varzReply c = Got (RVarz (Stats.Varz stats))).
Proof.
  unfold fetchFails, delayIsInt, cycle. intros H.
  destruct (optsNow c !! "delay") as [[ | val | ] | ]; try discriminate.
  destruct (varzReply c) as [e1 | rv].
  - do 3 eexists. split; [reflexivity | ]. repeat split. left. reflexivity.
  - destruct (connzReply c) as [e2 | rc]; try discriminate.
    do 3 eexists. split; [reflexivity | ].
    destruct rv; cbn; repeat split; auto.
Qed.

(** C4. When the vitals request or the connections request of an
    iteration fails, the iteration still sends a snapshot (no connections,
    zero rates, and vitals that are either zero or the ones just fetched),
    keeps the variables of the loop as they were, and the loop goes on with
    the next iteration. *)
Theorem fetch_failure_keeps_sampling (s : Sampler) (c : Cycle) (cs : list Cycle) :
  fetchFails c = true ->
  exists slept err stats,
    cycle s c = Sent slept (Some err) stats s /\
    Stats.Rates stats = Rates.zero /\
    Stats.Connz stats = Connz.zero /\
    (Stats.Varz stats = Varz.zero \/ varzReply c = Got (RVarz (Stats.Varz stats))) /\
    monitorStats s (c :: cs)
    = (stats :: fst (monitorStats s cs), snd (monitorStats s cs)).
Proof.
  intros H. destruct (cycle_fails s c H) as (slept & err & stats & E & H1 & H2 & H3).
  exists slept, err, stats. repeat split; try assumption.
  apply (monitorStats_sent _ _ _ _ _ _ _ E).
Qed.

Lemma fetch_failure_keeps_sampling_witness :
  fetchFails (badCycle 1000000) = true /\
  exists slept err stats,
    cycle (initSampler 0) (badCycle 1000000)
    = Sent slept (Some err) stats (initSampler 0) /\
    Stats.Rates stats = Rates.zero /\
    Stats.Connz stats = Connz.zero /\
    (Stats.Varz stats = Varz.zero
     \/ varzReply (badCycle 1000000) = Got (RVarz (Stats.Varz stats))) /\
    monitorStats (initSampler 0) (badCycle 1000000 :: steadyRun)
    = (stats :: fst (monitorStats (initSampler 0) steadyRun),
       snd (monitorStats (initSampler 0) steadyRun)).
Proof.
  split; [vm_compute; reflexivity | ].
  apply (fetch_failure_keeps_sampling (initSampler 0) (badCycle 1000000) steadyRun).
  vm_compute. reflexivity.
Defined.

(** C3, as stated, fails.  The first iteration fails and the second one
    succeeds with 500 more inbound messages and a measured interval of 1.02
    seconds: both snapshots carry a zero inbound message rate, which is not
    490.2, the quotient of the difference and the interval. *)
Lemma first_success_after_failure_has_zero_rate :
  match published (initSampler 0) failThenSucceed with
  | [st1; st2] =>
      Stats.Rates st1 = Rates.zero /\
      Varz.InMsgs (Stats.Varz st2) = 500 /\
      Rates.InMsgsRate (Stats.Rates st2) = 0%float /\
      approx (Rates.InMsgsRate (Stats.Rates st2)) 490.2 = false /\
      approx (float64_of_int (sub64 500 (inMsgsLastVal (initSampler 0)))
              / Seconds (Sub 1020000000 (pollTime (initSampler 0)))) 490.2 = true
  | _ => False
  end.
Proof. vm_compute. repeat split; reflexivity. Qed.

(** C3, amended.  When the first iteration's fetch fails and the second
    one's succeeds, the first snapshot has zero rates, no connections and
    zero or partial vitals, and the second snapshot, the first successful
    sample, has zero rates as well, whatever its counters and the measured
    interval; the quotient of difference and interval appears with the next
    successful iteration. *)
Theorem failure_then_first_success (start : Z) (c1 c2 c3 : Cycle) :
  fetchFails c1 = true -> fetchesSucceed c2 = true -> fetchesSucceed c3 = true ->
  exists st1 st2 st3,
    published (initSampler start) [c1; c2; c3] = [st1; st2; st3] /\
    published (initSampler start) [c1; c2] = [st1; st2] /\
    Stats.Rates st1 = Rates.zero /\
    Stats.Connz st1 = Connz.zero /\
    (Stats.Varz st1 = Varz.zero \/ varzReply c1 = Got (RVarz (Stats.Varz st1))) /\
    Stats.Rates st2 = Rates.zero /\
    Stats.Rates st3
    = ratesBetween (Stats.Varz st2) (Stats.Varz st3) (now c2) (now c3).
Proof.
  intros H1 H2 H3.
  destruct (cycle_fails (initSampler start) c1 H1)
    as (sl1 & err & st1 & E1 & R1 & C1 & V1).
  destruct (cycle_first (initSampler start) c2 eq_refl H2)
    as (sl2 & st2 & s2 & E2 & R2 & T2).
  destruct (cycle_tracks s2 c3 _ _ T2 H3) as (sl3 & st3 & s3 & E3 & R3 & _).
  exists st1, st2, st3.
  rewrite !(published_sent _ _ _ _ _ _ _ E1), !(published_sent _ _ _ _ _ _ _ E2),
    (published_sent _ _ _ _ _ _ _ E3).
  repeat split; assumption.
Qed.

Lemma failure_then_first_success_witness :
  fetchFails (badCycle 1000000) = true /\
  fetchesSucceed (goodCycle (varzWith 500 0 0 0) 1020000000) = true /\
  fetchesSucceed (goodCycle (varzWith 900 0 0 0) 2020000000) = true /\
  exists st1 st2 st3,
    published (initSampler 0)
      [badCycle 1000000; goodCycle (varzWith 500 0 0 0) 1020000000;
       goodCycle (varzWith 900 0 0 0) 2020000000] = [st1; st2; st3] /\
    published (initSampler 0)
      [badCycle 1000000; goodCycle (varzWith 500 0 0 0) 1020000000] = [st1; st2] /\
    Stats.Rates st1 = Rates.zero /\
    Stats.Connz st1 = Connz.zero /\
    (Stats.Varz st1 = Varz.zero
     \/ varzReply (badCycle 1000000) = Got (RVarz (Stats.Varz st1))) /\
    Stats.Rates st2 = Rates.zero /\
    Stats.Rates st3
    = ratesBetween (Stats.Varz st2) (Stats.Varz st3)
        (now (goodCycle (varzWith 500 0 0 0) 1020000000))
        (now (goodCycle (varzWith 900 0 0 0) 2020000000)).
Proof.
  split; [vm_compute; reflexivity | ].
  split; [vm_compute; reflexivity | ].
  split; [vm_compute; reflexivity | ].
  apply (failure_then_first_success 0); vm_compute; reflexivity.
Defined.

(** ** Start-up *)


(** An iteration whose delay option is an [int] sleeps for that many
    seconds and sends a snapshot. *)
Lemma cycle_sleeps (s : Sampler) (c : Cycle) (d : Z) :
  optsNow c !! "delay" = Some (VInt d) ->
  exists err stats s', cycle s c = Sent (mul64 d Second) err stats s'.
Proof.
  intros H. unfold cycle. rewrite H.
  destruct (varzReply c); [eauto | ]. destruct (connzReply c); eauto.
Qed.





(** ** The sort policy *)

Lemma StronglySorted_snoc {A : Type} (R : A -> A -> Prop) (l : list A) (x : A) :
  StronglySorted R l -> Forall (fun y => R y x) l -> StronglySorted R (l ++ [x])%list.
Proof.
  induction 1 as [ | y l Hs IH Hy]; intros Hx; simpl.
  - repeat constructor.
  - inversion Hx as [ | ? ? Hyx Hlx]; subst. constructor; [auto | ].
    apply Forall_app. split; [assumption | repeat constructor; assumption].
Qed.

Lemma StronglySorted_rev_flip {A : Type} (R : A -> A -> Prop) (l : list A) :
  StronglySorted (fun a b => R b a) l -> StronglySorted R (rev l).
Proof.
  induction 1 as [ | y l Hs IH Hy]; simpl; [constructor | ].
  apply StronglySorted_snoc; [assumption | ].
  apply Forall_rev. assumption.
Qed.

Section InsertionSort.

Variable less : Less.
Variable le : ConnInfo.t -> ConnInfo.t -> Prop.
Hypothesis less_le : forall x y, less x y = true -> le x y.
Hypothesis not_less_le : forall x y, less x y = false -> le y x.
Hypothesis le_trans : forall x y z, le x y -> le y z -> le x z.

Lemma sink_perm x before : Permutation (sort.sink less x before) (x :: before).
Proof.
  induction before as [ | y rest IH]; simpl; [reflexivity | ].
  destruct (less x y); [ | reflexivity].
  rewrite IH. apply perm_swap.
Qed.

Lemma sink_sorted x before :
  StronglySorted (fun a b => le b a) before ->
  StronglySorted (fun a b => le b a) (sort.sink less x before).
Proof.
  induction 1 as [ | y rest Hs IH Hy]; simpl.
  - repeat constructor.
  - destruct (less x y) eqn:E.
    + constructor; [assumption | ].
      eapply Permutation_Forall; [symmetry; apply sink_perm | ].
      constructor; [apply less_le, E | assumption].
    + constructor; [constructor; assumption | ].
      constructor; [apply not_less_le, E | ].
      eapply Forall_impl; [exact Hy | ]. intros z Hz. cbv beta in Hz.
      eapply le_trans; [exact Hz | apply not_less_le, E].
Qed.

Lemma fold_sink_perm data : forall before,
  Permutation (fold_left (fun before x => sort.sink less x before) data before)
    (rev data ++ before)%list.
Proof.
  induction data as [ | x data IH]; intros before; simpl; [reflexivity | ].
  rewrite IH, sink_perm, <- app_assoc. simpl.
  apply Permutation_app_head. reflexivity.
Qed.

Lemma fold_sink_sorted data : forall before,
  StronglySorted (fun a b => le b a) before ->
  StronglySorted (fun a b => le b a)
    (fold_left (fun before x => sort.sink less x before) data before).
Proof.
  induction data as [ | x data IH]; intros before Hs; simpl; [assumption | ].
  apply IH, sink_sorted, Hs.
Qed.

Lemma Sort_perm data : Permutation (sort.Sort less data) data.
Proof.
  unfold sort.Sort, sort.insertionSort.
  rewrite <- Permutation_rev, fold_sink_perm, app_nil_r.
  symmetry. apply Permutation_rev.
Qed.

Lemma Sort_sorted data : StronglySorted le (sort.Sort less data).
Proof.
  unfold sort.Sort, sort.insertionSort.
  apply StronglySorted_rev_flip, fold_sink_sorted. constructor.
Qed.

End InsertionSort.

(** The six keys, one at a time. *)
Lemma validSortOpt_cases (k : string) :
  validSortOpt k = true ->
  k = SortByCid \/ k = SortBySubs \/ k = SortByOutMsgs \/ k = SortByInMsgs
  \/ k = SortByOutBytes \/ k = SortByInBytes.
Proof.
  unfold validSortOpt. rewrite !orb_true_iff, !String.eqb_eq. tauto.
Qed.

Ltac order_facts :=
  unfold inOrder, metricOf, sort.Reverse, ByCid, BySubs, ByMsgsTo, ByMsgsFrom,
    ByBytesTo, ByBytesFrom; simpl; intros;
  repeat match goal with
    | H : (_ <? _) = true |- _ => apply Z.ltb_lt in H
    | H : (_ <? _) = false |- _ => apply Z.ltb_ge in H
    | H : (_ <=? _) = true |- _ => apply Z.leb_le in H
    end;
  apply Z.leb_le; lia.

Ltac sorted_by less :=
  split;
  [ apply (Sort_perm less)
  | apply (Sort_sorted less); order_facts ].

(** C5, amended.  Under each of the six sort keys the rows are the
    connections of the snapshot, reordered: ascending by id under the id
    key, descending by the key's own counter under the five other keys.
    (Nothing is said of connections that are equal on that counter.) *)
Theorem sortConns_orders_by_key (o : gmap string Value) (k : string)
    (conns : list ConnInfo.t) :
  validSortOpt k = true ->
  o !! "sort" = Some (VSortOpt k) ->
  Permutation (sortConns o conns) conns /\
  StronglySorted (fun a b => inOrder k a b = true) (sortConns o conns).
Proof.
  intros Hk Ho. unfold sortConns. rewrite Ho.
  destruct (validSortOpt_cases k Hk) as [-> | [-> | [-> | [-> | [-> | ->]]]]]; simpl.
  - sorted_by ByCid.
  - sorted_by (sort.Reverse BySubs).
  - sorted_by (sort.Reverse ByMsgsTo).
  - sorted_by (sort.Reverse ByMsgsFrom).
  - sorted_by (sort.Reverse ByBytesTo).
  - sorted_by (sort.Reverse ByBytesFrom).
Qed.

Lemma sortConns_orders_by_key_witness :
  validSortOpt SortBySubs = true /\
  optsSortedBy SortBySubs !! "sort" = Some (VSortOpt SortBySubs) /\
  Permutation (sortConns (optsSortedBy SortBySubs) [conn 1 3; conn 2 9; conn 3 5])
    [conn 1 3; conn 2 9; conn 3 5] /\
  StronglySorted (fun a b => inOrder SortBySubs a b = true)
    (sortConns (optsSortedBy SortBySubs) [conn 1 3; conn 2 9; conn 3 5]).
Proof.
  split; [reflexivity | ]. split; [reflexivity | ].
  apply (sortConns_orders_by_key (optsSortedBy SortBySubs) SortBySubs); reflexivity.
Defined.

Example sortConns_by_subs :
  sortConns (optsSortedBy SortBySubs) [conn 1 3; conn 2 9; conn 3 5]
  = [conn 2 9; conn 3 5; conn 1 3].
Proof. reflexivity. Qed.

(** C5, as stated, fails on the tie-break.  Two connections with five
    subscriptions each, id 2 above id 1, sorted by subscription count: the
    rows keep that order, id 2 above id 1. *)
Lemma ties_are_not_broken_by_id :
  sortConns (optsSortedBy SortBySubs) [conn 2 5; conn 1 5] = [conn 2 5; conn 1 5]
  /\ ~ StronglySorted (fun a b => inOrderThenId SortBySubs a b = true)
         (sortConns (optsSortedBy SortBySubs) [conn 2 5; conn 1 5]).
Proof.
  split; [reflexivity | ].
  intros H. change (sortConns _ _) with [conn 2 5; conn 1 5] in H.
  inversion H as [ | ? ? _ Hall]; subst.
  inversion Hall as [ | ? ? Hhd _]; subst.
  vm_compute in Hhd. discriminate.
Qed.

(** ** The report *)

(** C6, as stated, fails.  A snapshot whose connections are id 2, then id
    1, rendered under the id key: after the call the snapshot holds id 1,
    then id 2. *)
Lemma generateParagraph_reorders_the_snapshot :
  let stats := Stats.mk Varz.zero (Connz.mk 2 [conn 2 5; conn 1 5]) Rates.zero in
  Connz.Conns (Stats.Connz (snd (generateParagraph (optsSortedBy SortByCid) stats)))
  = [conn 1 5; conn 2 5]
  /\ snd (generateParagraph (optsSortedBy SortByCid) stats) <> stats.
Proof.
  split; [reflexivity | ].
  intros H. apply (f_equal (fun st => Connz.Conns (Stats.Connz st))) in H.
  vm_compute in H. discriminate.
Qed.

(** C6, amended.  Producing the report leaves the vitals, the rates and
    the connection count of the snapshot as they were, and keeps the
    elements of its connection collection; it puts them in the order of the
    active sort key, in place, which is also the order of the rows.  With no
    sort key in the options the collection is untouched. *)
Theorem generateParagraph_only_reorders (o : gmap string Value) (stats : Stats.t) :
  let stats' := snd (generateParagraph o stats) in
  Stats.Varz stats' = Stats.Varz stats /\
  Stats.Rates stats' = Stats.Rates stats /\
  Connz.NumConns (Stats.Connz stats') = Connz.NumConns (Stats.Connz stats) /\
  Connz.Conns (Stats.Connz stats') = sortConns o (Connz.Conns (Stats.Connz stats)) /\
  Permutation (Connz.Conns (Stats.Connz stats')) (Connz.Conns (Stats.Connz stats)) /\
  rows (fst (generateParagraph o stats)) = Connz.Conns (Stats.Connz stats') /\
  (o !! "sort" = None -> stats' = stats).
Proof.
  cbn. repeat split.
  - unfold sortConns.
    destruct (o !! "sort") as [[ | | k] | ]; try reflexivity.
    repeat (destruct (String.eqb k _);
            [apply Sort_perm | ]).
    reflexivity.
  - intros Ho. unfold sortConns. rewrite Ho.
    destruct stats as [v [n cs] r]. reflexivity.
Qed.

(** ** The chart histories *)

Lemma push_length {A : Type} (data : list A) (x : A) :
  (List.length data <= 150)%nat -> (List.length (push data x) <= 150)%nat.
Proof.
  intros H. unfold push, slice.
  destruct (Nat.ltb_spec 150 (List.length (data ++ [x]))) as [Hlt | Hle].
  - rewrite length_skipn, length_firstn. lia.
  - exact Hle.
Qed.

(** On a full series the reslicing drops the oldest sample and the sample
    that was just appended. *)
Lemma push_full {A : Type} (data : list A) (x : A) :
  List.length data = 150%nat -> push data x = skipn 1 data.
Proof.
  intros H. unfold push, slice.
  rewrite length_app, H. simpl.
  rewrite firstn_app, H. simpl. rewrite app_nil_r.
  rewrite <- H, firstn_all. reflexivity.
Qed.

Lemma update_bounded (o : gmap string Value) (ch : Charts) (stats : Stats.t) :
  bounded ch -> bounded (update o ch stats).
Proof.
  intros (H1 & H2 & H3 & H4 & H5 & H6).
  unfold bounded, update; cbn [connsData memData inMsgsData inBytesData
                               outMsgsData outBytesData].
  repeat split; apply push_length; assumption.
Qed.

(** X1. Whatever snapshots [update] receives, none of the six series of the
    dashboard ever holds more than 150 samples. *)
Theorem histories_bounded (o : gmap string Value)
    (received : list (gmap string Value * Stats.t)) :
  bounded (updates (initCharts o) received).
Proof.
  unfold updates.
  assert (bounded (initCharts o)) as H by (repeat split; simpl; lia).
  revert H. generalize (initCharts o) as ch.
  induction received as [ | r received IH]; intros ch H; simpl; [exact H | ].
  apply IH, update_bounded, H.
Qed.

(** C1, evaluated on the code.  The 151 snapshots with 0, 1, ..., 150
    connections reach [update], one after the other.  The connections
    series, which starts as [[0]], ends as 0, 1, ..., 148, 150: the reslicing
    that removed the initial zero removed the sample 149 with it.  From an empty series the same samples leave 1,
    ..., 149: 149 elements, the newest sample lost. *)
Theorem history_after_151_samples :
  connsData
    (updates (initCharts sampleOpts)
       (map (fun n => (sampleOpts, snapshotOf n)) (upTo 151)))
  = map float64_of_int (upTo 149 ++ [150])%list
  /\ fold_left push (upTo 151) [] = skipn 1 (upTo 150)
  /\ fold_left push (upTo 151) [] <> skipn 1 (upTo 151).
Proof.
  split; [vm_compute; reflexivity | ].
  split; [vm_compute; reflexivity | ].
  intros H. apply (f_equal (@List.length Z)) in H. vm_compute in H. discriminate.
Qed.

(** ** The input machine *)

Ltac unfold_setters :=
  unfold refreshOptionHeader, emit, setSort, setLimit, setBuf, setView, setOpts,
    setNotices;
  cbn [opts viewMode waitingSortOption waitingLimitOption optionBuf spawned
       asleep screen fst snd].

Lemma lineEdit_flags (st : UI) (e : Event) :
  waitingSortOption (lineEdit st e) = waitingSortOption st /\
  waitingLimitOption (lineEdit st e) = waitingLimitOption st /\
  opts (lineEdit st e) = opts st /\
  viewMode (lineEdit st e) = viewMode st.
Proof.
  unfold lineEdit. destruct (_ && _ && _); unfold_setters; auto.
Qed.

Lemma sortPrompt_exclusive (st : UI) (e : Event) :
  exclusive st -> exclusive (snd (sortPrompt st e)).
Proof.
  unfold exclusive, sortPrompt. intros Hx.
  destruct (waitingSortOption st) eqn:Hs; [ | cbn [snd]; rewrite Hs; reflexivity].
  destruct (isKey e && (Key e =? KeyEnter)).
  - destruct (validSortOpt (optionBuf st)); unfold_setters;
      [reflexivity | rewrite Hs; exact Hx].
  - destruct (lineEdit_flags st e) as (E1 & E2 & _).
    unfold_setters. rewrite E1, E2, Hs. exact Hx.
Qed.

Lemma limitPrompt_exclusive (st : UI) (e : Event) :
  exclusive st -> exclusive (snd (limitPrompt st e)).
Proof.
  unfold exclusive, limitPrompt. intros Hx.
  destruct (waitingLimitOption st) eqn:Hl; [ | cbn [snd]; rewrite Hl; exact Hx].
  destruct (isKey e && (Key e =? KeyEnter)).
  - destruct (Sscanf_d (optionBuf st)); unfold_setters; apply andb_false_r.
  - destruct (lineEdit_flags st e) as (E1 & E2 & _).
    unfold_setters. rewrite E1, E2, Hl. exact Hx.
Qed.

Lemma keys_exclusive (st : UI) (e : Event) :
  exclusive st -> exclusive (onResize (onSpace (onN (onO st e) e) e) e).
Proof.
  unfold exclusive. intros Hx.
  assert (exclusive (onO st e)) as H1.
  { unfold exclusive, onO.
    destruct (isKey e && (Ch e =? 111)); cbn [andb]; [ | exact Hx].
    destruct (negb (waitingLimitOption st)) eqn:Hl; [ | exact Hx].
    apply negb_true_iff in Hl. unfold_setters. rewrite Hl. reflexivity. }
  assert (exclusive (onN (onO st e) e)) as H2.
  { revert H1. generalize (onO st e) as st1. intros st1 H1. unfold exclusive, onN.
    destruct (isKey e && (Ch e =? 110)); cbn [andb]; [ | exact H1].
    destruct (negb (waitingSortOption st1)) eqn:Hs; [ | exact H1].
    apply negb_true_iff in Hs. unfold_setters. rewrite Hs. reflexivity. }
  revert H2. generalize (onN (onO st e) e) as st2. intros st2 H2.
  assert (exclusive (onSpace st2 e)) as H3.
  { unfold exclusive, onSpace.
    destruct (isKey e && (Key e =? KeySpace)); [ | exact H2].
    destruct (String.eqb (viewMode st2) "top"); [reflexivity | ].
    destruct (String.eqb (viewMode st2) "dashboard"); unfold_setters; exact H2. }
  revert H3. generalize (onSpace st2 e) as st3. intros st3 H3.
  unfold onResize. destruct (EvType e); try exact H3.
  destruct (String.eqb (viewMode st3) "dashboard"); unfold_setters; exact H3.
Qed.

Lemma handle_exclusive (st st' : UI) (e : Event) :
  exclusive st -> handle st e = Running st' -> exclusive st'.
Proof.
  intros Hx. unfold handle.
  pose proof (sortPrompt_exclusive st e Hx) as H1.
  destruct (sortPrompt st e) as [[ | ] st1]; cbn [snd] in H1.
  - pose proof (limitPrompt_exclusive st1 e H1) as H2.
    destruct (limitPrompt st1 e) as [[ | ] st2]; cbn [snd] in H2.
    + destruct (isKey e && (Ch e =? 113)); [discriminate | ].
      intros H. injection H as <-. apply keys_exclusive, H2.
    + intros H. injection H as <-. exact H2.
  - intros H. injection H as <-. exact H1.
Qed.

Lemma step_exclusive (st st' : UI) (i : Input) :
  exclusive st -> step st i = Running st' -> exclusive st'.
Proof.
  destruct i as [e | | | ]; simpl.
  - apply handle_exclusive.
  - intros Hx H. injection H as <-. exact Hx.
  - intros Hx H. injection H as <-. unfold noticeShows.
    destruct (spawned st); [exact Hx | ].
    destruct (_ <? _)%nat; exact Hx.
  - intros Hx H. injection H as <-. unfold noticeWakes.
    destruct (asleep st); [exact Hx | reflexivity].
Qed.

Lemma StartUI_exclusive (inputs : list Input) : forall st st',
  exclusive st -> StartUI st inputs = Running st' -> exclusive st'.
Proof.
  induction inputs as [ | i inputs IH]; intros st st' Hx H; simpl in H.
  - injection H as <-. exact Hx.
  - destruct (step st i) as [st1 | | ] eqn:E; try discriminate.
    eapply IH; [ | exact H]. eapply step_exclusive; eassumption.
Qed.

(** X2. The sort prompt and the limit prompt are never open together, however
    the events, the redraw signals and the steps of the notice goroutines
    interleave. *)
Theorem prompts_are_exclusive (o : gmap string Value) (inputs : list Input)
    (st : UI) :
  StartUI (initUI o) inputs = Running st ->
  waitingSortOption st && waitingLimitOption st = false.
Proof.
  intros H.
  exact (StartUI_exclusive inputs (initUI o) st eq_refl H).
Qed.

Lemma prompts_are_exclusive_witness :
  StartUI (initUI sampleOpts) [Ev (charKey 111); Ev (charKey 110)]
  = Running (mkUI sampleOpts "top" true false "n" 0 0
               [SortHeader (Some (VSortOpt "cid"));
                SortPrompt (Some (VSortOpt "cid")) "n"])
  /\ true && false = false.
Proof.
  split; [reflexivity | ].
  exact (prompts_are_exclusive sampleOpts [Ev (charKey 111); Ev (charKey 110)]
           (mkUI sampleOpts "top" true false "n" 0 0
              [SortHeader (Some (VSortOpt "cid"));
               SortPrompt (Some (VSortOpt "cid")) "n"])
           eq_refl).
Defined.

(** When a notice goroutine wakes up, the sort prompt is closed and the
    buffer is empty, whatever happened during its sleep. *)
Lemma noticeWakes_resets (st : UI) :
  (0 < asleep st)%nat ->
  waitingSortOption (noticeWakes st) = false /\ optionBuf (noticeWakes st) = "".
Proof.
  unfold noticeWakes. destruct (asleep st); [lia | ]. intros _. split; reflexivity.
Qed.

Ltac unfold_handle :=
  unfold handle, sortPrompt, limitPrompt, lineEdit, onResize, onSpace, onN, onO,
    isKey.

(** Enter in the sort prompt, with a buffer that is none of the six sort
    keys: the event itself changes nothing but starts the notice goroutine;
    the goroutine prints "invalid order" with the buffer, sleeps one
    second, and then leaves the prompt, prints the blanks of
    [refreshOptionHeader] and empties the buffer.  The machine is then in
    the Normal state, and the options, the sort key among them, and the
    view are as they were. *)
Theorem invalid_sort_key_is_rejected (st : UI) (e : Event) :
  waitingSortOption st = true ->
  waitingLimitOption st = false ->
  EvType e = EventKey ->
  Key e = KeyEnter ->
  validSortOpt (optionBuf st) = false ->
  let padding := if (String.length (optionBuf st) <? 5)%nat then "       " else "" in
  let done :=
    mkUI (opts st) (viewMode st) false false "" (spawned st) (asleep st)
      (screen st ++ [InvalidOrder padding (optionBuf st);
                     Sleep (1 * Second);
                     ClearLine (18 + 2 + 2 * String.length (optionBuf st))])%list in
  handle st e = Running (setNotices (S (spawned st)) (asleep st) st) /\
  StartUI st [Ev e; NoticeShows; NoticeWakes] = Running done /\
  inputMode done = Normal /\
  opts done !! "sort" = opts st !! "sort".
Proof.
  intros Hs Hl Ht Hk Hv padding done.
  assert (handle st e = Running (setNotices (S (spawned st)) (asleep st) st)) as Hh.
  { unfold_handle. rewrite Hs, Ht, Hk, Hv. reflexivity. }
  split; [exact Hh | ]. split; [ | split; reflexivity].
  cbn [StartUI step]. rewrite Hh. unfold noticeShows. unfold_setters.
  unfold noticeWakes. unfold_setters.
  subst done padding. rewrite Hl, <- !app_assoc. reflexivity.
Qed.


Lemma invalid_sort_key_is_rejected_witness :
  let st := mkUI sampleOpts "top" true false "bogus" 0 0 [] in
  let e := specialKey KeyEnter in
  let done :=
    mkUI sampleOpts "top" false false "" 0 0
      [InvalidOrder "" "bogus"; Sleep (1 * Second); ClearLine 30] in
  validSortOpt (optionBuf st) = false /\
  handle st e = Running (setNotices 1 0 st) /\
  StartUI st [Ev e; NoticeShows; NoticeWakes] = Running done /\
  inputMode done = Normal /\
  opts done !! "sort" = opts st !! "sort".
Proof.
  split; [reflexivity | ].
  exact (invalid_sort_key_is_rejected
           (mkUI sampleOpts "top" true false "bogus" 0 0 []) (specialKey KeyEnter)
           eq_refl eq_refl eq_refl eq_refl eq_refl).
Defined.

Lemma isKey_true (e : Event) : EvType e = EventKey -> isKey e = true.
Proof. unfold isKey. intros ->. reflexivity. Qed.

(** The keys tested after the two prompts leave an open prompt open, and
    its buffer alone, unless the key is space. *)
Lemma onO_prompt (st : UI) (e : Event) :
  xorb (waitingSortOption st) (waitingLimitOption st) = true ->
  waitingSortOption (onO st e) = waitingSortOption st /\
  waitingLimitOption (onO st e) = waitingLimitOption st /\
  optionBuf (onO st e) = optionBuf st.
Proof.
  intros Hx. unfold onO.
  destruct (isKey e && (Ch e =? 111)); cbn [andb]; [ | auto].
  destruct (waitingSortOption st) eqn:Hs, (waitingLimitOption st) eqn:Hl;
    try discriminate; cbn [negb]; unfold_setters; auto.
Qed.

Lemma onN_prompt (st : UI) (e : Event) :
  xorb (waitingSortOption st) (waitingLimitOption st) = true ->
  waitingSortOption (onN st e) = waitingSortOption st /\
  waitingLimitOption (onN st e) = waitingLimitOption st /\
  optionBuf (onN st e) = optionBuf st.
Proof.
  intros Hx. unfold onN.
  destruct (isKey e && (Ch e =? 110)); cbn [andb]; [ | auto].
  destruct (waitingSortOption st) eqn:Hs, (waitingLimitOption st) eqn:Hl;
    try discriminate; cbn [negb]; unfold_setters; auto.
Qed.

Lemma keys_prompt (st : UI) (e : Event) :
  EvType e = EventKey -> (Key e =? KeySpace) = false ->
  xorb (waitingSortOption st) (waitingLimitOption st) = true ->
  let st' := onResize (onSpace (onN (onO st e) e) e) e in
  waitingSortOption st' = waitingSortOption st /\
  waitingLimitOption st' = waitingLimitOption st /\
  optionBuf st' = optionBuf st.
Proof.
  intros Ht Hk Hx. unfold onResize, onSpace. rewrite Ht, Hk, andb_false_r.
  destruct (onO_prompt st e Hx) as (A1 & A2 & A3).
  destruct (onN_prompt (onO st e) e) as (B1 & B2 & B3).
  { rewrite A1, A2. exact Hx. }
  cbv zeta. rewrite B1, B2, B3. auto.
Qed.

(** Backspace on an empty buffer takes the second branch of the
    "Handle backspace" statement. *)
Lemma lineEdit_empty (st : UI) (e : Event) :
  optionBuf st = "" -> lineEdit st e = setBuf (runeString (Ch e)) st.
Proof.
  intros Hb. unfold lineEdit. rewrite Hb. cbn [String.length Nat.ltb Nat.leb andb].
  rewrite andb_false_r. reflexivity.
Qed.

Lemma runeString_not_empty (r : Z) : runeString r <> "".
Proof.
  unfold runeString.
  repeat match goal with
    | |- context [if ?b then _ else _] => destruct b
    end; discriminate.
Qed.

(** The two prompt blocks on a key that is not enter, with one prompt
    open: the line is edited once. *)
Lemma prompts_edit (st : UI) (e : Event) :
  xorb (waitingSortOption st) (waitingLimitOption st) = true ->
  isKey e && (Key e =? KeyEnter) = false ->
  exists st1 st2,
    sortPrompt st e = (Fallthrough, st1) /\
    limitPrompt st1 e = (Fallthrough, st2) /\
    waitingSortOption st2 = waitingSortOption st /\
    waitingLimitOption st2 = waitingLimitOption st /\
    optionBuf st2 = optionBuf (lineEdit st e).
Proof.
  intros Hx Hk. destruct (lineEdit_flags st e) as (E1 & E2 & _).
  unfold sortPrompt, limitPrompt. rewrite Hk.
  destruct (waitingSortOption st) eqn:Hs, (waitingLimitOption st) eqn:Hl;
    try discriminate.
  - set (st1 := emit (SortPrompt (opts (lineEdit st e) !! "sort")
                        (optionBuf (lineEdit st e))) (lineEdit st e)).
    assert (waitingLimitOption st1 = false) as H1 by exact E2.
    exists st1, st1. rewrite H1. repeat split; assumption.
  - exists st, (emit (LimitPrompt (opts (lineEdit st e) !! "conns")
                       (optionBuf (lineEdit st e))) (lineEdit st e)).
    rewrite Hl. repeat split; assumption.
Qed.

(** A key that is neither enter nor backspace, in the sort prompt: the
    two prompt blocks append its character and print the prompt. *)
Lemma sortPrompt_appends (st : UI) (e : Event) :
  waitingSortOption st = true -> waitingLimitOption st = false ->
  EvType e = EventKey -> Key e = 0 \/ Key e = KeySpace ->
  let st1 :=
    emit (SortPrompt (opts st !! "sort") (optionBuf st +:+ runeString (Ch e)))
      (setBuf (optionBuf st +:+ runeString (Ch e)) st) in
  sortPrompt st e = (Fallthrough, st1) /\
  limitPrompt st1 e = (Fallthrough, st1).
Proof.
  intros Hs Hl Ht Hk st1.
  assert ((Key e =? KeyEnter) = false) as HE
    by (destruct Hk as [-> | ->]; reflexivity).
  assert (((Key e =? KeyBackspace) || (Key e =? KeyBackspace2)) = false) as HB
    by (destruct Hk as [-> | ->]; reflexivity).
  split.
  - unfold sortPrompt, lineEdit.
    rewrite Hs, HE, HB, !andb_false_r. reflexivity.
  - unfold limitPrompt. subst st1. unfold_setters. rewrite Hl. reflexivity.
Qed.

Lemma sort_prompt_char (st : UI) (e : Event) :
  EvType e = EventKey ->
  waitingSortOption st = true -> waitingLimitOption st = false ->
  Key e = 0 -> Ch e <> 113 ->
  exists st',
    handle st e = Running st' /\
    optionBuf st' = optionBuf st +:+ runeString (Ch e) /\
    inputMode st' = EnteringSort /\
    viewMode st' = viewMode st /\
    opts st' = opts st.
Proof.
  intros Ht Hs Hl Hk Hq.
  destruct (sortPrompt_appends st e Hs Hl Ht (or_introl Hk)) as (E1 & E2).
  unfold handle. rewrite E1, E2.
  rewrite (isKey_true e Ht). apply Z.eqb_neq in Hq. rewrite Hq. cbn [andb].
  unfold onResize, onSpace, onN. rewrite Ht, (isKey_true e Ht), Hk.
  change (0 =? KeySpace) with false. cbn [andb].
  assert (forall st0, waitingSortOption st0 = true ->
            waitingSortOption (onO st0 e) = true /\
            optionBuf (onO st0 e) = optionBuf st0 /\
            viewMode (onO st0 e) = viewMode st0 /\
            opts (onO st0 e) = opts st0) as HO.
  { intros st0 H0. unfold onO.
    destruct (_ && _ && _); unfold_setters; auto. }
  match goal with
  | |- context [onO ?s e] => destruct (HO s Hs) as (H1 & H2 & H3 & H4)
  end.
  rewrite H1, andb_false_r.
  eexists. split; [reflexivity | ].
  unfold inputMode. rewrite H1, H2, H3, H4. repeat split.
Qed.

Lemma sort_prompt_q (st : UI) (e : Event) :
  EvType e = EventKey ->
  waitingSortOption st = true -> waitingLimitOption st = false ->
  Key e = 0 -> Ch e = 113 ->
  handle st e = Exit 0.
Proof.
  intros Ht Hs Hl Hk Hq.
  destruct (sortPrompt_appends st e Hs Hl Ht (or_introl Hk)) as (E1 & E2).
  unfold handle. rewrite E1, E2, (isKey_true e Ht), Hq. reflexivity.
Qed.

(** The space key: what [onSpace] leaves of the state. *)
Lemma onSpace_toggles (st : UI) (e : Event) :
  EvType e = EventKey -> Key e = KeySpace ->
  optionBuf (onSpace st e) = optionBuf st /\
  (viewMode st = "top" ->
   viewMode (onSpace st e) = "dashboard" /\
   waitingSortOption (onSpace st e) = false /\
   waitingLimitOption (onSpace st e) = false) /\
  (viewMode st = "dashboard" ->
   viewMode (onSpace st e) = "top" /\
   waitingSortOption (onSpace st e) = waitingSortOption st /\
   waitingLimitOption (onSpace st e) = waitingLimitOption st).
Proof.
  intros Ht Hk. unfold onSpace. rewrite (isKey_true e Ht), Hk.
  change (true && (KeySpace =? KeySpace)) with true. cbv iota.
  destruct (String.eqb_spec (viewMode st) "top") as [Hv | Hv].
  - split; [reflexivity | ]. split; intros H.
    + repeat split.
    + rewrite Hv in H. discriminate.
  - destruct (String.eqb_spec (viewMode st) "dashboard") as [Hd | Hd].
    + split; [reflexivity | ]. split; intros H; [contradiction | repeat split].
    + split; [reflexivity | ]. split; intros H; contradiction.
Qed.

Lemma sort_prompt_space (st : UI) (e : Event) :
  EvType e = EventKey ->
  waitingSortOption st = true -> waitingLimitOption st = false ->
  Key e = KeySpace -> Ch e = 0 ->
  exists st',
    handle st e = Running st' /\
    optionBuf st' = optionBuf st +:+ String (byte 0) "" /\
    (viewMode st = "top" -> viewMode st' = "dashboard" /\ inputMode st' = Normal) /\
    (viewMode st = "dashboard" -> viewMode st' = "top" /\ inputMode st' = EnteringSort).
Proof.
  intros Ht Hs Hl Hk Hc.
  destruct (sortPrompt_appends st e Hs Hl Ht (or_intror Hk)) as (E1 & E2).
  revert E1 E2. rewrite Hc. change (runeString 0) with (String (byte 0) "").
  set (st1 := emit _ _). intros E1 E2.
  destruct (onSpace_toggles st1 e Ht Hk) as (B & Vtop & Vdash).
  exists (onSpace st1 e). split.
  - unfold handle. rewrite E1, E2, (isKey_true e Ht), Hc. cbn [andb Z.eqb].
    unfold onResize, onN, onO. rewrite Ht, (isKey_true e Ht), Hc. reflexivity.
  - split; [exact B | ]. unfold inputMode. split; intros Hv.
    + destruct (Vtop Hv) as (-> & -> & ->). split; reflexivity.
    + destruct (Vdash Hv) as (-> & -> & _). split; [reflexivity | ].
      change (waitingSortOption st1) with (waitingSortOption st).
      rewrite Hs. reflexivity.
Qed.

Lemma normal_ignores (st : UI) (e : Event) :
  EvType e = EventKey ->
  waitingSortOption st = false -> waitingLimitOption st = false ->
  Key e <> KeySpace -> Ch e <> 113 -> Ch e <> 111 -> Ch e <> 110 ->
  handle st e = Running st.
Proof.
  intros Ht Hs Hl Hsp Hq Ho Hn. unfold handle, sortPrompt, limitPrompt.
  rewrite Hs, Hl. unfold onResize, onSpace, onN, onO.
  apply Z.eqb_neq in Hsp, Hq, Ho, Hn.
  rewrite Ht, (isKey_true e Ht), Hsp, Hq, Ho. cbn [andb].
  rewrite Hn. reflexivity.
Qed.

(** C9, amended.  In the sort prompt, a character key other than ['q']
    (['o'] and ['n'] included) only appends its character to the buffer:
    the mode, the view and the options stay as they are.  ['q'] ends the
    process with status 0.  Space, the space key with no character, appends
    a zero byte and toggles the view; from the top view that closes the
    prompt, from the dashboard the prompt stays open.  In the Normal state,
    a key that is none of ['q'], ['o'], ['n'] and space changes nothing at
    all. *)
Theorem prompt_keys_and_ignored_keys (st : UI) (e : Event) :
  EvType e = EventKey ->
  (waitingSortOption st = true -> waitingLimitOption st = false ->
   Key e = 0 -> Ch e <> 113 ->
   exists st',
     handle st e = Running st' /\
     optionBuf st' = optionBuf st +:+ runeString (Ch e) /\
     inputMode st' = EnteringSort /\
     viewMode st' = viewMode st /\
     opts st' = opts st)
  /\
  (waitingSortOption st = true -> waitingLimitOption st = false ->
   Key e = 0 -> Ch e = 113 ->
   handle st e = Exit 0)
  /\
  (waitingSortOption st = true -> waitingLimitOption st = false ->
   Key e = KeySpace -> Ch e = 0 ->
   exists st',
     handle st e = Running st' /\
     optionBuf st' = optionBuf st +:+ String (byte 0) "" /\
     (viewMode st = "top" -> viewMode st' = "dashboard" /\ inputMode st' = Normal) /\
     (viewMode st = "dashboard" ->
      viewMode st' = "top" /\ inputMode st' = EnteringSort))
  /\
  (waitingSortOption st = false -> waitingLimitOption st = false ->
   Key e <> KeySpace -> Ch e <> 113 -> Ch e <> 111 -> Ch e <> 110 ->
   handle st e = Running st).
Proof.
  intros Ht. repeat split.
  - apply sort_prompt_char, Ht.
  - apply sort_prompt_q, Ht.
  - apply sort_prompt_space, Ht.
  - apply normal_ignores, Ht.
Qed.

Lemma prompt_keys_and_ignored_keys_witness :
  (exists st',
     handle (mkUI sampleOpts "top" true false "ci" 0 0 []) (charKey 100)
     = Running st' /\
     optionBuf st' = "ci" +:+ runeString 100 /\
     inputMode st' = EnteringSort /\
     viewMode st' = "top" /\
     opts st' = sampleOpts)
  /\ handle (initUI sampleOpts) (charKey 120) = Running (initUI sampleOpts).
Proof.
  split.
  - apply (proj1 (prompt_keys_and_ignored_keys
                    (mkUI sampleOpts "top" true false "ci" 0 0 []) (charKey 100)
                    eq_refl));
      [reflexivity | reflexivity | reflexivity | discriminate].
  - apply (proj2 (proj2 (proj2 (prompt_keys_and_ignored_keys
                    (initUI sampleOpts) (charKey 120) eq_refl))));
      (reflexivity || discriminate).
Defined.

(** C9, as stated, fails.  With the sort prompt open (['o'] was pressed):
    ['q'] ends the process with status 0; space, which arrives as the space
    key with no character, closes the prompt, switches to the dashboard
    and has put a zero byte in the buffer; and the up arrow, a key that the
    prompt does not handle, puts a zero byte in the buffer. *)
Lemma q_and_space_act_inside_the_sort_prompt :
  StartUI (initUI sampleOpts) [Ev (charKey 111); Ev (charKey 113)] = Exit 0
  /\ match StartUI (initUI sampleOpts) [Ev (charKey 111); Ev (specialKey KeySpace)] with
     | Running st =>
         inputMode st = Normal /\ viewMode st = "dashboard"
         /\ optionBuf st = String (byte 0) ""
     | _ => False
     end
  /\ match StartUI (initUI sampleOpts) [Ev (charKey 111); Ev (specialKey 65517)] with
     | Running st =>
         inputMode st = EnteringSort /\ optionBuf st = String (byte 0) ""
     | _ => False
     end.
Proof. vm_compute. repeat split; reflexivity. Qed.

(** C10. In either prompt, a backspace key that arrives while the buffer
    is empty is not dropped: it takes the appending branch, and the buffer
    becomes the string of the event's character, which is never empty; for
    a key that carries no character it is the one-byte string of the zero
    rune.  The prompt stays open. *)
Theorem backspace_on_empty_buffer_appends (st : UI) (e : Event) :
  xorb (waitingSortOption st) (waitingLimitOption st) = true ->
  optionBuf st = "" ->
  EvType e = EventKey ->
  Key e = KeyBackspace \/ Key e = KeyBackspace2 ->
  Ch e <> 113 ->
  exists st',
    handle st e = Running st' /\
    optionBuf st' = runeString (Ch e) /\
    optionBuf st' <> "" /\
    (Ch e = 0 ->
     optionBuf st' = String (byte 0) "" /\ String.length (optionBuf st') = 1%nat) /\
    waitingSortOption st' = waitingSortOption st /\
    waitingLimitOption st' = waitingLimitOption st.
Proof.
  intros Hx Hb Ht Hk Hq.
  assert ((Key e =? KeyEnter) = false) as HE
    by (destruct Hk as [-> | ->]; reflexivity).
  assert ((Key e =? KeySpace) = false) as HS
    by (destruct Hk as [-> | ->]; reflexivity).
  destruct (prompts_edit st e Hx) as (st1 & st2 & E1 & E2 & F1 & F2 & B).
  { rewrite HE. apply andb_false_r. }
  rewrite (lineEdit_empty st e Hb) in B. cbn [setBuf optionBuf] in B.
  destruct (keys_prompt st2 e Ht HS) as (G1 & G2 & G3).
  { rewrite F1, F2. exact Hx. }
  exists (onResize (onSpace (onN (onO st2 e) e) e) e).
  split.
  - unfold handle. rewrite E1, E2, (isKey_true e Ht).
    apply Z.eqb_neq in Hq. rewrite Hq. reflexivity.
  - rewrite G1, G2, G3, B, F1, F2.
    split; [reflexivity | ]. split; [apply runeString_not_empty | ].
    split; [ | split; reflexivity].
    intros ->. split; reflexivity.
Qed.

Lemma backspace_on_empty_buffer_appends_witness :
  exists st',
    handle (mkUI sampleOpts "top" false true "" 0 0 []) (specialKey KeyBackspace2)
    = Running st' /\
    optionBuf st' = runeString 0 /\
    optionBuf st' <> "" /\
    (Ch (specialKey KeyBackspace2) = 0 ->
     optionBuf st' = String (byte 0) "" /\ String.length (optionBuf st') = 1%nat) /\
    waitingSortOption st' = false /\
    waitingLimitOption st' = true.
Proof.
  apply (backspace_on_empty_buffer_appends
           (mkUI sampleOpts "top" false true "" 0 0 []) (specialKey KeyBackspace2));
    [reflexivity | reflexivity | reflexivity | right; reflexivity | discriminate].
Defined.

(** Backspace on an empty sort prompt, evaluated. *)
Example backspace_in_sort_prompt :
  match StartUI (initUI sampleOpts) [Ev (charKey 111); Ev (specialKey KeyBackspace)] with
  | Running st => optionBuf st = String (byte 0) "" /\ inputMode st = EnteringSort
  | _ => False
  end.
Proof. vm_compute. split; reflexivity. Qed.

(* ------------------------------------------------------------------ *)
(** ** Further properties of the sampler *)

Lemma cycle_fatal (s : Sampler) (c : Cycle) :
  delayIsInt c = false -> cycle s c = Fatal 1.
Proof.
  unfold delayIsInt, cycle. intros H.
  destruct (optsNow c !! "delay") as [[ | val | ] | ]; (discriminate || reflexivity).
Qed.

Lemma cycle_sent (s : Sampler) (c : Cycle) :
  delayIsInt c = true ->
  exists slept err stats s', cycle s c = Sent slept err stats s'.
Proof.
  unfold delayIsInt, cycle. intros H.
  destruct (optsNow c !! "delay") as [[ | val | ] | ]; try discriminate.
  destruct (varzReply c); [eauto | ]. destruct (connzReply c); eauto.
Qed.

(** X3. The loop of the sampler ends only at an iteration that finds a
    delay option that is not an [int], and then with exit code 1 and
    without a snapshot for that iteration; as long as the option is an
    [int], every iteration publishes exactly one snapshot, whether its
    requests succeed or fail. *)
Theorem monitorStats_ends_only_on_bad_delay (s : Sampler) (cs : list Cycle) :
  (forallb delayIsInt cs = true ->
   snd (monitorStats s cs) = None /\
   List.length (published s cs) = List.length cs)
  /\
  (forallb delayIsInt cs = false ->
   snd (monitorStats s cs) = Some 1 /\
   (List.length (published s cs) < List.length cs)%nat).
Proof.
  revert s. induction cs as [ | c cs IH]; intros s.
  - split; [split; reflexivity | discriminate].
  - cbn [forallb]. destruct (delayIsInt c) eqn:Hc; cbn [andb].
    + destruct (cycle_sent s c Hc) as (slept & err & stats & s' & E).
      unfold published. rewrite (monitorStats_sent _ _ _ _ _ _ _ E).
      cbn [fst snd List.length]. destruct (IH s') as [H1 H2].
      split; intros H.
      * destruct (H1 H) as [-> E2]. unfold published in E2. rewrite E2.
        split; reflexivity.
      * destruct (H2 H) as [-> E2]. unfold published in E2.
        split; [reflexivity | lia].
    + split; [discriminate | intros _].
      unfold published. simpl. rewrite (cycle_fatal s c Hc).
      split; [reflexivity | simpl; lia].
Qed.

(** X4. Failed iterations leave no trace in the rates: the snapshots that
    a run publishes in its successful iterations are the snapshots that it
    would publish if the failed iterations had not taken place.  (The
    counters and the clock reading of the last successful iteration stay
    the baseline across any number of failures.) *)
Theorem failed_cycles_leave_no_trace (s : Sampler) (cs : list Cycle) :
  forallb delayIsInt cs = true ->
  ofSuccesses cs (published s cs)
  = published s (List.filter fetchesSucceed cs).
Proof.
  revert s. induction cs as [ | c cs IH]; intros s Hall; [reflexivity | ].
  cbn [forallb] in Hall. apply andb_prop in Hall as [Hc Hall].
  cbn [List.filter]. destruct (fetchesSucceed c) eqn:Hok.
  - destruct (cycle_succeeds s c Hok) as (slept & stats & s' & E).
    rewrite !(published_sent _ _ _ _ _ _ _ E).
    unfold ofSuccesses. cbn [combine List.filter fst]. rewrite Hok.
    cbn [map snd]. f_equal. apply IH, Hall.
  - assert (fetchFails c = true) as Hf.
    { unfold fetchFails, fetchesSucceed in *. rewrite Hc in *. cbn [andb] in *.
      destruct (failed (varzReply c)), (failed (connzReply c));
        (reflexivity || discriminate). }
    destruct (cycle_fails s c Hf) as (slept & err & stats & E & _).
    rewrite (published_sent _ _ _ _ _ _ _ E).
    unfold ofSuccesses. cbn [combine List.filter fst]. rewrite Hok.
    apply IH, Hall.
Qed.

Lemma failed_cycles_leave_no_trace_witness :
  forallb delayIsInt (badCycle 1000000 :: steadyRun) = true /\
  ofSuccesses (badCycle 1000000 :: steadyRun)
    (published (initSampler 0) (badCycle 1000000 :: steadyRun))
  = published (initSampler 0)
      (List.filter fetchesSucceed (badCycle 1000000 :: steadyRun)).
Proof.
  split; [vm_compute; reflexivity | ].
  apply (failed_cycles_leave_no_trace (initSampler 0) (badCycle 1000000 :: steadyRun)).
  vm_compute. reflexivity.
Defined.




(* ------------------------------------------------------------------ *)
(** ** Further properties of the start-up *)

(** X6. [main] never ends with exit code 1: once the version flag is
    out of the way it stores the host and the port in the options, so its
    test for a missing host or port cannot fire; what is left is the start
    of the loops, or the panic when the terminal cannot be initialised. *)
Theorem main_never_exits_with_error (f : Flags) (uiInit : bool) :
  main f uiInit <> Exit 1 /\
  (showVersion f = true -> main f uiInit = Exit 0) /\
  (showVersion f = false -> uiInit = false -> main f uiInit = Panic) /\
  (showVersion f = false -> uiInit = true ->
   exists o, main f uiInit = Running o).
Proof.
  unfold main.
  destruct (showVersion f); [repeat split; (reflexivity || discriminate) | ].
  rewrite lookup_insert_ne, lookup_insert_ne, lookup_insert_ne, lookup_insert_eq
    by discriminate.
  rewrite lookup_insert_ne, lookup_insert_ne, lookup_insert_eq by discriminate.
  destruct uiInit; repeat split; try discriminate; try reflexivity.
  intros _ _. eauto.
Qed.

(** X7. A sort key on the command line that is not one of the six leaves
    the options without a sort key, and then the report keeps the
    connections in the order of the snapshot and leaves the snapshot as it
    is; a key that is one of the six is stored as it is. *)
Theorem startup_sort_key (f : Flags) :
  showVersion f = false ->
  exists o,
    main f true = Running o /\
    (validSortOpt (sortBy f) = true -> o !! "sort" = Some (VSortOpt (sortBy f))) /\
    (validSortOpt (sortBy f) = false ->
     o !! "sort" = None /\
     forall stats,
       snd (generateParagraph o stats) = stats /\
       rows (fst (generateParagraph o stats)) = Connz.Conns (Stats.Connz stats)).
Proof.
  intros Hv. unfold main. rewrite Hv.
  rewrite lookup_insert_ne, lookup_insert_ne, lookup_insert_ne, lookup_insert_eq
    by discriminate.
  rewrite lookup_insert_ne, lookup_insert_ne, lookup_insert_eq by discriminate.
  destruct (validSortOpt (sortBy f)); eexists; (split; [reflexivity | ]).
  - split; [intros _; apply lookup_insert_eq | discriminate].
  - split; [discriminate | intros _].
    assert (forall o : gmap string Value, o !! "sort" = None ->
              forall conns, sortConns o conns = conns) as HS.
    { intros o Ho conns. unfold sortConns. rewrite Ho. reflexivity. }
    match goal with |- ?o !! "sort" = None /\ _ => assert (o !! "sort" = None) as Ho end.
    { rewrite !lookup_insert_ne by discriminate. apply lookup_empty. }
    split; [exact Ho | ]. intros stats.
    unfold generateParagraph. cbn [fst snd rows]. cbn [Stats.Connz Connz.Conns].
    rewrite (HS _ Ho). destruct stats as [v [n cs] r]. split; reflexivity.
Qed.

Lemma startup_sort_key_witness :
  exists o,
    main (mkFlags "127.0.0.1" 8222 1024 1 "pending" false) true = Running o /\
    (validSortOpt "pending" = true -> o !! "sort" = Some (VSortOpt "pending")) /\
    (validSortOpt "pending" = false ->
     o !! "sort" = None /\
     forall stats,
       snd (generateParagraph o stats) = stats /\
       rows (fst (generateParagraph o stats)) = Connz.Conns (Stats.Connz stats)).
Proof.
  apply (startup_sort_key (mkFlags "127.0.0.1" 8222 1024 1 "pending" false)).
  reflexivity.
Defined.

(* ------------------------------------------------------------------ *)
(** ** Further properties of the sort policy and the report *)

Lemma StronglySorted_tail {A : Type} (R : A -> A -> Prop) (l1 l2 : list A) :
  StronglySorted R (l1 ++ l2) -> StronglySorted R l2.
Proof.
  induction l1 as [ | x l1 IH]; cbn [app]; [trivial | ].
  intros H. inversion H; subst. auto.
Qed.

Section SortedInput.

Variable less : Less.

(** The elements enter a prefix that already holds them in order: none of
    them moves. *)
Lemma fold_sink_in_order (data : list ConnInfo.t) : forall before,
  StronglySorted (fun a b => less b a = false) (rev before ++ data) ->
  fold_left (fun before x => sort.sink less x before) data before
  = (rev data ++ before)%list.
Proof.
  induction data as [ | x data IH]; intros before Hs; [reflexivity | ].
  cbn [fold_left].
  assert (sort.sink less x before = x :: before) as ->.
  { destruct before as [ | y rest]; [reflexivity | ].
    cbn [sort.sink].
    assert (less x y = false) as ->; [ | reflexivity].
    cbn [rev] in Hs. rewrite <- app_assoc in Hs.
    apply StronglySorted_tail in Hs.
    inversion Hs as [ | ? ? _ Hall]; subst.
    inversion Hall; subst. assumption. }
  rewrite IH.
  - cbn [rev]. rewrite <- app_assoc. reflexivity.
  - cbn [rev]. rewrite <- app_assoc. exact Hs.
Qed.

Lemma Sort_in_order (data : list ConnInfo.t) :
  StronglySorted (fun a b => less b a = false) data ->
  sort.Sort less data = data.
Proof.
  intros Hs. unfold sort.Sort, sort.insertionSort.
  rewrite fold_sink_in_order by exact Hs.
  rewrite app_nil_r. apply rev_involutive.
Qed.

End SortedInput.

Lemma StronglySorted_weaken {A : Type} (R Q : A -> A -> Prop) (l : list A) :
  (forall a b, R a b -> Q a b) -> StronglySorted R l -> StronglySorted Q l.
Proof.
  intros HRQ. induction 1 as [ | x l Hs IH Hx]; constructor; [assumption | ].
  eapply Forall_impl; [exact Hx | ]. intros y. apply HRQ.
Qed.

Ltac resorted less :=
  apply (Sort_in_order less);
  apply (StronglySorted_weaken _ _ _ (fun a b H => H));
  apply (Sort_sorted less);
  unfold sort.Reverse, ByCid, BySubs, ByMsgsTo, ByMsgsFrom, ByBytesTo, ByBytesFrom;
  intros;
  repeat match goal with
    | H : (_ <? _) = true |- _ => apply Z.ltb_lt in H
    | H : (_ <? _) = false |- _ => apply Z.ltb_ge in H
    end;
  try apply Z.ltb_ge; lia.

(** Sorting what is already sorted by the same key changes nothing. *)
Lemma sortConns_idempotent (o : gmap string Value) (conns : list ConnInfo.t) :
  sortConns o (sortConns o conns) = sortConns o conns.
Proof.
  unfold sortConns.
  destruct (o !! "sort") as [[ | | k] | ]; try reflexivity.
  destruct (String.eqb k SortByCid); [resorted ByCid | ].
  destruct (String.eqb k SortBySubs); [resorted (sort.Reverse BySubs) | ].
  destruct (String.eqb k SortByOutMsgs); [resorted (sort.Reverse ByMsgsTo) | ].
  destruct (String.eqb k SortByInMsgs); [resorted (sort.Reverse ByMsgsFrom) | ].
  destruct (String.eqb k SortByOutBytes); [resorted (sort.Reverse ByBytesTo) | ].
  destruct (String.eqb k SortByInBytes); [resorted (sort.Reverse ByBytesFrom) | ].
  reflexivity.
Qed.

(** X8. Rendering is idempotent: a second report of the same snapshot
    under the same options is the same text, and it leaves the snapshot as
    the first report left it; the in-place sort moves the connections
    once.  (Stated for a snapshot of at most six connections, for which
    [sort.Sort] is the insertion sort of every release of Go.) *)
Theorem generateParagraph_twice (o : gmap string Value) (stats : Stats.t) :
  (List.length (Connz.Conns (Stats.Connz stats)) <= 6)%nat ->
  let once := generateParagraph o stats in
  generateParagraph o (snd once) = once.
Proof.
  intros _. unfold generateParagraph.
  cbn [fst snd Stats.Varz Stats.Connz Stats.Rates Connz.NumConns Connz.Conns].
  rewrite sortConns_idempotent. reflexivity.
Qed.

Lemma generateParagraph_twice_witness :
  let stats := Stats.mk Varz.zero (Connz.mk 3 [conn 1 3; conn 2 9; conn 3 9]) Rates.zero in
  let once := generateParagraph (optsSortedBy SortBySubs) stats in
  rows (fst once) = [conn 2 9; conn 3 9; conn 1 3] /\
  generateParagraph (optsSortedBy SortBySubs) (snd once) = once.
Proof.
  split; [reflexivity | ].
  apply (generateParagraph_twice (optsSortedBy SortBySubs)
           (Stats.mk Varz.zero (Connz.mk 3 [conn 1 3; conn 2 9; conn 3 9]) Rates.zero)).
  simpl. lia.
Defined.

(* ------------------------------------------------------------------ *)
(** ** Further properties of the chart histories *)

Lemma push_below {A : Type} (data : list A) (x : A) :
  (List.length data < 150)%nat -> push data x = (data ++ [x])%list.
Proof.
  intros H. unfold push.
  destruct (Nat.ltb_spec 150 (List.length (data ++ [x]))) as [Hlt | Hle];
    [ | reflexivity].
  rewrite length_app in Hlt. simpl in Hlt. lia.
Qed.

Lemma fold_push_below {A : Type} (xs : list A) : forall data,
  (List.length data + List.length xs <= 150)%nat ->
  fold_left push xs data = (data ++ xs)%list.
Proof.
  induction xs as [ | x xs IH]; intros data H; cbn [fold_left].
  - symmetry. apply app_nil_r.
  - cbn [List.length] in H. rewrite push_below by lia.
    rewrite IH by (rewrite length_app; simpl; lia).
    rewrite <- app_assoc. reflexivity.
Qed.

(** Each series of the widgets goes through [push] on its own. *)
Lemma updates_series (received : list (gmap string Value * Stats.t)) : forall ch,
  connsData (updates ch received)
  = fold_left push (map (fun r => connsSample (snd r)) received) (connsData ch) /\
  memData (updates ch received)
  = fold_left push (map (fun r => memSample (snd r)) received) (memData ch) /\
  inMsgsData (updates ch received)
  = fold_left push (map (fun r => rateSample Rates.InMsgsRate (snd r)) received)
      (inMsgsData ch) /\
  inBytesData (updates ch received)
  = fold_left push (map (fun r => rateSample Rates.InBytesRate (snd r)) received)
      (inBytesData ch) /\
  outMsgsData (updates ch received)
  = fold_left push (map (fun r => rateSample Rates.OutMsgsRate (snd r)) received)
      (outMsgsData ch) /\
  outBytesData (updates ch received)
  = fold_left push (map (fun r => rateSample Rates.OutBytesRate (snd r)) received)
      (outBytesData ch).
Proof.
  unfold updates.
  induction received as [ | r received IH]; intros ch; cbn [fold_left map].
  - repeat split.
  - destruct (IH (update (fst r) ch (snd r))) as (H1 & H2 & H3 & H4 & H5 & H6).
    rewrite H1, H2, H3, H4, H5, H6. repeat split.
Qed.

(** X9. Below the cap nothing is lost: while fewer than 150 snapshots
    have arrived, every series holds every sample taken so far, oldest
    first, after the zero it started with; the series of the inbound message
    rate, which starts empty, holds the samples alone. *)
Theorem histories_below_the_cap (o : gmap string Value)
    (received : list (gmap string Value * Stats.t)) :
  (List.length received < 150)%nat ->
  let ch := updates (initCharts o) received in
  connsData ch = 0%float :: map (fun r => connsSample (snd r)) received /\
  memData ch = 0%float :: map (fun r => memSample (snd r)) received /\
  inMsgsData ch = map (fun r => rateSample Rates.InMsgsRate (snd r)) received /\
  inBytesData ch = 0 :: map (fun r => rateSample Rates.InBytesRate (snd r)) received /\
  outMsgsData ch = 0 :: map (fun r => rateSample Rates.OutMsgsRate (snd r)) received /\
  outBytesData ch = 0 :: map (fun r => rateSample Rates.OutBytesRate (snd r)) received.
Proof.
  intros Hlen ch. subst ch.
  destruct (updates_series received (initCharts o)) as (H1 & H2 & H3 & H4 & H5 & H6).
  rewrite H1, H2, H3, H4, H5, H6.
  cbn [initCharts connsData memData inMsgsData inBytesData outMsgsData outBytesData].
  rewrite !fold_push_below by (rewrite length_map; simpl; lia).
  repeat split.
Qed.

Lemma histories_below_the_cap_witness :
  let received := map (fun n => (sampleOpts, snapshotOf n)) (upTo 3) in
  let ch := updates (initCharts sampleOpts) received in
  connsData ch = 0%float :: map (fun r => connsSample (snd r)) received /\
  memData ch = 0%float :: map (fun r => memSample (snd r)) received /\
  inMsgsData ch = map (fun r => rateSample Rates.InMsgsRate (snd r)) received /\
  inBytesData ch = 0 :: map (fun r => rateSample Rates.InBytesRate (snd r)) received /\
  outMsgsData ch = 0 :: map (fun r => rateSample Rates.OutMsgsRate (snd r)) received /\
  outBytesData ch = 0 :: map (fun r => rateSample Rates.OutBytesRate (snd r)) received.
Proof.
  apply (histories_below_the_cap sampleOpts
           (map (fun n => (sampleOpts, snapshotOf n)) (upTo 3))).
  simpl. lia.
Defined.

(** X10. At the cap every other sample is lost: when a series holds 150
    samples, the next sample [x] is appended and dropped again together with
    the oldest one, which leaves 149 samples; the sample [y] after it is
    kept and fills the series again.  So of two consecutive samples only
    the second one reaches a full chart. *)
Theorem push_at_the_cap {A : Type} (data : list A) (x y : A) :
  List.length data = 150%nat ->
  push data x = skipn 1 data /\
  push (push data x) y = (skipn 1 data ++ [y])%list /\
  List.length (push (push data x) y) = 150%nat.
Proof.
  intros H. rewrite (push_full data x H).
  assert (List.length (skipn 1 data) = 149%nat) as H1
    by (rewrite length_skipn; lia).
  rewrite push_below by lia.
  repeat split. rewrite length_app, H1. reflexivity.
Qed.

Lemma push_at_the_cap_witness :
  List.length (upTo 150) = 150%nat /\
  push (upTo 150) 150 = skipn 1 (upTo 150) /\
  push (push (upTo 150) 150) 151 = (skipn 1 (upTo 150) ++ [151])%list /\
  List.length (push (push (upTo 150) 150) 151) = 150%nat.
Proof.
  split; [reflexivity | ].
  apply (push_at_the_cap (upTo 150) 150 151). reflexivity.
Defined.

(* ------------------------------------------------------------------ *)
(** ** Further properties of the input machine *)

(** What the four key tests and the resize test leave alone. *)
Lemma onO_frame (st : UI) (e : Event) :
  opts (onO st e) = opts st /\ viewMode (onO st e) = viewMode st /\
  optionBuf (onO st e) = optionBuf st /\
  waitingLimitOption (onO st e) = waitingLimitOption st.
Proof. unfold onO. destruct (_ && _ && _); repeat split. Qed.

Lemma onN_frame (st : UI) (e : Event) :
  opts (onN st e) = opts st /\ viewMode (onN st e) = viewMode st /\
  optionBuf (onN st e) = optionBuf st /\
  waitingSortOption (onN st e) = waitingSortOption st.
Proof. unfold onN. destruct (_ && _ && _); repeat split. Qed.

Lemma onSpace_frame (st : UI) (e : Event) :
  opts (onSpace st e) = opts st /\ optionBuf (onSpace st e) = optionBuf st.
Proof.
  unfold onSpace. destruct (_ && _); [ | repeat split].
  destruct (String.eqb (viewMode st) "top"); [repeat split | ].
  destruct (String.eqb (viewMode st) "dashboard"); repeat split.
Qed.

Lemma onResize_frame (st : UI) (e : Event) :
  opts (onResize st e) = opts st /\ viewMode (onResize st e) = viewMode st /\
  optionBuf (onResize st e) = optionBuf st /\
  waitingSortOption (onResize st e) = waitingSortOption st /\
  waitingLimitOption (onResize st e) = waitingLimitOption st.
Proof.
  unfold onResize. destruct (EvType e); try (repeat split; fail).
  destruct (String.eqb (viewMode st) "dashboard"); repeat split.
Qed.

Lemma keys_opts (st : UI) (e : Event) :
  opts (onResize (onSpace (onN (onO st e) e) e) e) = opts st.
Proof.
  destruct (onResize_frame (onSpace (onN (onO st e) e) e) e) as (-> & _).
  destruct (onSpace_frame (onN (onO st e) e) e) as (-> & _).
  destruct (onN_frame (onO st e) e) as (-> & _).
  apply onO_frame.
Qed.

Lemma sortPrompt_opts (st : UI) (e : Event) :
  optsStep (opts st) (opts (snd (sortPrompt st e))).
Proof.
  unfold sortPrompt.
  destruct (waitingSortOption st); [ | apply optsSame; reflexivity].
  destruct (isKey e && (Key e =? KeyEnter)).
  - destruct (validSortOpt (optionBuf st)) eqn:Hv.
    + apply (optsSort _ _ (optionBuf st) Hv). reflexivity.
    + apply optsSame. reflexivity.
  - apply optsSame. cbn [snd]. apply (lineEdit_flags st e).
Qed.

Lemma limitPrompt_opts (st : UI) (e : Event) :
  optsStep (opts st) (opts (snd (limitPrompt st e))).
Proof.
  unfold limitPrompt.
  destruct (waitingLimitOption st); [ | apply optsSame; reflexivity].
  destruct (isKey e && (Key e =? KeyEnter)).
  - destruct (Sscanf_d (optionBuf st)) as [n | ].
    + apply (optsLimit _ _ n). reflexivity.
    + apply optsSame. reflexivity.
  - apply optsSame. cbn [snd]. apply (lineEdit_flags st e).
Qed.

Lemma handle_opts (st st' : UI) (e : Event) :
  handle st e = Running st' -> optsStep (opts st) (opts st').
Proof.
  unfold handle. pose proof (sortPrompt_opts st e) as H1.
  destruct (sortPrompt st e) as [[ | ] st1] eqn:E1; cbn [snd] in H1.
  - assert (opts st1 = opts st) as Ho.
    { revert E1. unfold sortPrompt.
      destruct (waitingSortOption st); [ | intros [= <-]; reflexivity].
      destruct (isKey e && (Key e =? KeyEnter)).
      - destruct (validSortOpt (optionBuf st)); discriminate.
      - intros [= <-]. apply (lineEdit_flags st e). }
    pose proof (limitPrompt_opts st1 e) as H2. rewrite Ho in H2.
    destruct (limitPrompt st1 e) as [[ | ] st2]; cbn [snd] in H2.
    + destruct (isKey e && (Ch e =? 113)); [discriminate | ].
      intros [= <-]. rewrite keys_opts. exact H2.
    + intros [= <-]. exact H2.
  - intros [= <-]. exact H1.
Qed.

Lemma step_opts (st st' : UI) (i : Input) :
  step st i = Running st' -> optsStep (opts st) (opts st').
Proof.
  destruct i as [e | | | ]; cbn [step].
  - apply handle_opts.
  - intros [= <-]. apply optsSame. reflexivity.
  - intros [= <-]. apply optsSame. unfold noticeShows.
    destruct (spawned st); reflexivity.
  - intros [= <-]. apply optsSame. unfold noticeWakes.
    destruct (asleep st); reflexivity.
Qed.

Lemma optsStep_wellFormed (o o' : gmap string Value) :
  optsStep o o' -> wellFormed o -> wellFormed o'.
Proof.
  intros [-> | k Hk -> | n ->] (Hd & Hc & Hs); [repeat split; assumption | | ];
    unfold wellFormed.
  - rewrite lookup_insert_eq, !lookup_insert_ne by discriminate. auto.
  - rewrite lookup_insert_eq, !lookup_insert_ne by discriminate. eauto.
Qed.

Lemma optsStep_frame (o o' : gmap string Value) (key : string) :
  optsStep o o' -> key <> "sort" -> key <> "conns" -> o' !! key = o !! key.
Proof.
  intros [-> | k Hk -> | n ->] H1 H2; [reflexivity | | ];
    apply lookup_insert_ne; congruence.
Qed.

Lemma StartUI_opts (inputs : list Input) : forall st st',
  StartUI st inputs = Running st' ->
  (wellFormed (opts st) -> wellFormed (opts st')) /\
  (forall key, key <> "sort" -> key <> "conns" -> opts st' !! key = opts st !! key).
Proof.
  induction inputs as [ | i inputs IH]; intros st st' H; cbn [StartUI] in H.
  - injection H as <-. split; auto.
  - destruct (step st i) as [st1 | | ] eqn:E; try discriminate.
    destruct (IH st1 st' H) as [H1 H2]. pose proof (step_opts _ _ _ E) as Ho.
    split.
    + intros Hw. apply H1. eapply optsStep_wellFormed; eassumption.
    + intros key Hs Hc. rewrite (H2 key Hs Hc). apply optsStep_frame; assumption.
Qed.

Lemma main_wellFormed (f : Flags) (o : gmap string Value) :
  main f true = Running o ->
  wellFormed o /\ o !! "delay" = Some (VInt (delay f)) /\
  o !! "host" = Some (VString (host f)) /\ o !! "port" = Some (VInt (port f)).
Proof.
  unfold main. destruct (showVersion f); [discriminate | ].
  rewrite lookup_insert_ne, lookup_insert_ne, lookup_insert_ne, lookup_insert_eq
    by discriminate.
  rewrite lookup_insert_ne, lookup_insert_ne, lookup_insert_eq by discriminate.
  unfold wellFormed.
  destruct (validSortOpt (sortBy f)) eqn:Hv; intros [= <-].
  - rewrite lookup_insert_eq, !lookup_insert_ne, !lookup_insert_eq by discriminate.
    rewrite !lookup_insert_ne, !lookup_insert_eq by discriminate.
    rewrite !lookup_insert_ne, !lookup_insert_eq by discriminate.
    repeat split; eauto.
  - rewrite !lookup_insert_eq.
    rewrite !lookup_insert_ne, !lookup_insert_eq by discriminate.
    rewrite !lookup_insert_ne, !lookup_insert_eq by discriminate.
    rewrite !lookup_insert_ne, lookup_empty by discriminate.
    repeat split; eauto.
Qed.

(** X11. Whatever reaches the event loop, the options stay well formed
    and the user can change nothing but the sort key and the connection
    limit: the delay is an [int], the limit is an [int], the sort key is
    absent or one of the six, and every other key of the options (host,
    port and delay among them) holds what [main] stored. *)
Theorem options_stay_well_formed (f : Flags) (o : gmap string Value)
    (inputs : list Input) (st : UI) :
  main f true = Running o ->
  StartUI (initUI o) inputs = Running st ->
  wellFormed (opts st) /\
  (forall key, key <> "sort" -> key <> "conns" -> opts st !! key = o !! key) /\
  opts st !! "host" = Some (VString (host f)) /\
  opts st !! "port" = Some (VInt (port f)) /\
  opts st !! "delay" = Some (VInt (delay f)).
Proof.
  intros Hm Hr. destruct (main_wellFormed f o Hm) as (Hw & Hd & Hh & Hp).
  destruct (StartUI_opts inputs (initUI o) st Hr) as [H1 H2].
  cbn [initUI opts] in H1, H2.
  split; [apply H1, Hw | ]. split; [exact H2 | ].
  rewrite !H2 by discriminate. auto.
Qed.

Lemma options_stay_well_formed_witness :
  let inputs :=
    ((Ev (charKey 110) :: typed [50; 53; 48]) ++ [Ev (specialKey KeyEnter)])%list in
  main sampleFlags true = Running sampleOpts /\
  match StartUI (initUI sampleOpts) inputs with
  | Running st =>
      wellFormed (opts st) /\
      (forall key, key <> "sort" -> key <> "conns" ->
                   opts st !! key = sampleOpts !! key) /\
      opts st !! "host" = Some (VString (host sampleFlags)) /\
      opts st !! "port" = Some (VInt (port sampleFlags)) /\
      opts st !! "delay" = Some (VInt (delay sampleFlags))
  | _ => False
  end.
Proof.
  intros inputs. split; [reflexivity | ].
  destruct (StartUI (initUI sampleOpts) inputs) as [st | code | ] eqn:E.
  - exact (options_stay_well_formed sampleFlags sampleOpts inputs st eq_refl E).
  - vm_compute in E. discriminate.
  - vm_compute in E. discriminate.
Defined.

(** X12. The fatal branch of the sampler cannot be reached from the
    keyboard: whatever the event loop has been through, an iteration that
    reads the options as the loop left them sleeps for the delay of the
    command line and publishes a snapshot. *)
Theorem sampler_survives_the_keyboard (f : Flags) (o : gmap string Value)
    (inputs : list Input) (st : UI) (s : Sampler) (c : Cycle) :
  main f true = Running o ->
  StartUI (initUI o) inputs = Running st ->
  optsNow c = opts st ->
  exists err stats s', cycle s c = Sent (mul64 (delay f) Second) err stats s'.
Proof.
  intros Hm Hr Ho. destruct (main_wellFormed f o Hm) as (_ & Hd & _).
  destruct (StartUI_opts inputs (initUI o) st Hr) as [_ H2].
  apply cycle_sleeps. rewrite Ho, H2 by discriminate. exact Hd.
Qed.

Lemma sampler_survives_the_keyboard_witness :
  let inputs := Ev (charKey 111) :: typed [120; 121] in
  match StartUI (initUI sampleOpts) inputs with
  | Running st =>
      exists err stats s',
        cycle (initSampler 0)
          (mkCycle (opts st) (Failed "refused") (Failed "refused") 5)
        = Sent (mul64 (delay sampleFlags) Second) err stats s'
  | _ => False
  end.
Proof.
  intros inputs.
  destruct (StartUI (initUI sampleOpts) inputs) as [st | code | ] eqn:E.
  - exact (sampler_survives_the_keyboard sampleFlags sampleOpts inputs st
             (initSampler 0)
             (mkCycle (opts st) (Failed "refused") (Failed "refused") 5)
             eq_refl E eq_refl).
  - vm_compute in E. discriminate.
  - vm_compute in E. discriminate.
Defined.

Lemma StartUI_app (a b : list Input) : forall st,
  StartUI st (a ++ b)
  = match StartUI st a with
    | Running st' => StartUI st' b
    | stop => stop
    end.
Proof.
  induction a as [ | i a IH]; intros st; cbn [app StartUI]; [reflexivity | ].
  destruct (step st i); auto.
Qed.

Lemma append_assoc (a b c : string) : (a +:+ b) +:+ c = a +:+ (b +:+ c).
Proof.
  induction a as [ | x a IH]; [reflexivity | ].
  change (String x ((a +:+ b) +:+ c) = String x (a +:+ (b +:+ c))).
  f_equal. exact IH.
Qed.

Lemma append_empty_r (a : string) : a +:+ "" = a.
Proof.
  induction a as [ | x a IH]; [reflexivity | ].
  change (String x (a +:+ "") = String x a). f_equal. exact IH.
Qed.

(** A character key takes the appending branch of "Handle backspace". *)
Lemma lineEdit_char (st : UI) (e : Event) :
  Key e = 0 -> lineEdit st e = setBuf (optionBuf st +:+ runeString (Ch e)) st.
Proof.
  intros Hk. unfold lineEdit. rewrite Hk.
  change ((0 =? KeyBackspace) || (0 =? KeyBackspace2)) with false.
  rewrite andb_false_r. reflexivity.
Qed.

(** Neither prompt block ends the iteration on a key that is not enter. *)
Lemma limitPrompt_falls_through (st : UI) (e : Event) :
  isKey e && (Key e =? KeyEnter) = false ->
  exists st2,
    limitPrompt st e = (Fallthrough, st2) /\
    opts st2 = opts st /\ viewMode st2 = viewMode st.
Proof.
  intros Hk. destruct (lineEdit_flags st e) as (_ & _ & Ho & Hv).
  unfold limitPrompt. rewrite Hk.
  destruct (waitingLimitOption st).
  - eexists. split; [reflexivity | ]. split; assumption.
  - exists st. repeat split.
Qed.

Lemma prompts_fall_through (st : UI) (e : Event) :
  isKey e && (Key e =? KeyEnter) = false ->
  exists st1 st2,
    sortPrompt st e = (Fallthrough, st1) /\
    limitPrompt st1 e = (Fallthrough, st2) /\
    opts st2 = opts st /\ viewMode st2 = viewMode st.
Proof.
  intros Hk. destruct (lineEdit_flags st e) as (_ & _ & Ho & Hv).
  unfold sortPrompt. rewrite Hk.
  destruct (waitingSortOption st).
  - set (st1 := emit (SortPrompt (opts (lineEdit st e) !! "sort")
                        (optionBuf (lineEdit st e))) (lineEdit st e)).
    assert (opts st1 = opts st /\ viewMode st1 = viewMode st) as [Ho1 Hv1]
      by (split; assumption).
    destruct (limitPrompt_falls_through st1 e Hk) as (st2 & E2 & Ho2 & Hv2).
    exists st1, st2. repeat split; congruence.
  - destruct (limitPrompt_falls_through st e Hk) as (st2 & E2 & Ho2 & Hv2).
    exists st, st2. repeat split; assumption.
Qed.

(** The keys tested after the prompts, on a key that is not space. *)
Lemma keys_frame (st : UI) (e : Event) :
  (Key e =? KeySpace) = false ->
  viewMode (onResize (onSpace (onN (onO st e) e) e) e) = viewMode st.
Proof.
  intros Hk.
  destruct (onResize_frame (onSpace (onN (onO st e) e) e) e) as (_ & -> & _).
  unfold onSpace. rewrite Hk, andb_false_r.
  destruct (onN_frame (onO st e) e) as (_ & -> & _).
  apply onO_frame.
Qed.

(** A character key other than ['q'] in an open prompt: its character is
    appended, and nothing else of the state changes but the screen. *)
Lemma prompt_char (st : UI) (e : Event) :
  xorb (waitingSortOption st) (waitingLimitOption st) = true ->
  EvType e = EventKey -> Key e = 0 -> Ch e <> 113 ->
  exists st',
    handle st e = Running st' /\
    optionBuf st' = optionBuf st +:+ runeString (Ch e) /\
    waitingSortOption st' = waitingSortOption st /\
    waitingLimitOption st' = waitingLimitOption st /\
    opts st' = opts st /\
    viewMode st' = viewMode st.
Proof.
  intros Hx Ht Hk Hq.
  assert (isKey e && (Key e =? KeyEnter) = false) as HE
    by (rewrite Hk; apply andb_false_r).
  assert ((Key e =? KeySpace) = false) as HS by (rewrite Hk; reflexivity).
  destruct (prompts_edit st e Hx HE) as (st1 & st2 & E1 & E2 & F1 & F2 & B).
  destruct (prompts_fall_through st e HE) as (st1' & st2' & E1' & E2' & Ho & Hv).
  rewrite E1 in E1'. injection E1' as <-. rewrite E2 in E2'. injection E2' as <-.
  rewrite (lineEdit_char st e Hk) in B. cbn [setBuf optionBuf] in B.
  destruct (keys_prompt st2 e Ht HS) as (G1 & G2 & G3).
  { rewrite F1, F2. exact Hx. }
  exists (onResize (onSpace (onN (onO st2 e) e) e) e).
  split.
  - unfold handle. rewrite E1, E2, (isKey_true e Ht).
    apply Z.eqb_neq in Hq. rewrite Hq. reflexivity.
  - rewrite G1, G2, G3, B, F1, F2, keys_opts, (keys_frame st2 e HS), Ho, Hv.
    repeat split.
Qed.

(** A run of character keys in an open prompt. *)
Lemma prompt_typed (chars : list Z) : forall st,
  xorb (waitingSortOption st) (waitingLimitOption st) = true ->
  Forall (fun c => c <> 113) chars ->
  exists st',
    StartUI st (typed chars) = Running st' /\
    optionBuf st' = optionBuf st +:+ runes chars /\
    waitingSortOption st' = waitingSortOption st /\
    waitingLimitOption st' = waitingLimitOption st /\
    opts st' = opts st /\
    viewMode st' = viewMode st.
Proof.
  induction chars as [ | c chars IH]; intros st Hx Hall.
  - exists st. cbn [typed map StartUI runes fold_right].
    rewrite append_empty_r. repeat split.
  - inversion Hall as [ | ? ? Hc Hrest]; subst.
    destruct (prompt_char st (charKey c) Hx eq_refl eq_refl Hc)
      as (st1 & E1 & B1 & S1 & L1 & O1 & V1).
    destruct (IH st1) as (st2 & E2 & B2 & S2 & L2 & O2 & V2);
      [rewrite S1, L1; exact Hx | exact Hrest | ].
    exists st2. change (typed (c :: chars)) with (Ev (charKey c) :: typed chars).
    cbn [StartUI step]. rewrite E1, E2.
    split; [reflexivity | ].
    rewrite B2, B1, S2, S1, L2, L1, O2, O1, V2, V1.
    cbn [runes fold_right charKey Ch]. rewrite append_assoc. repeat split.
Qed.

(** ['o'] and ['n'] in the Normal state. *)
Lemma normal_key_o (st : UI) (e : Event) :
  waitingSortOption st = false -> waitingLimitOption st = false ->
  EvType e = EventKey -> Key e = 0 -> Ch e = 111 ->
  handle st e = Running (setSort true (emit (SortHeader (opts st !! "sort")) st)).
Proof.
  intros Hs Hl Ht Hk Hc. unfold handle, sortPrompt, limitPrompt.
  rewrite Hs, Hl. unfold onResize, onSpace, onN, onO.
  rewrite Ht, (isKey_true e Ht), Hk, Hc, Hl. reflexivity.
Qed.

Lemma normal_key_n (st : UI) (e : Event) :
  waitingSortOption st = false -> waitingLimitOption st = false ->
  EvType e = EventKey -> Key e = 0 -> Ch e = 110 ->
  handle st e = Running (setLimit true (emit (LimitHeader (opts st !! "conns")) st)).
Proof.
  intros Hs Hl Ht Hk Hc. unfold handle, sortPrompt, limitPrompt.
  rewrite Hs, Hl. unfold onResize, onSpace, onN, onO.
  rewrite Ht, (isKey_true e Ht), Hk, Hc, Hl. cbn [andb Z.eqb Pos.eqb negb].
  rewrite Hs. reflexivity.
Qed.

(** Enter in a prompt whose buffer is accepted. *)
Lemma sort_enter_valid (st : UI) (e : Event) :
  waitingSortOption st = true -> EvType e = EventKey -> Key e = KeyEnter ->
  validSortOpt (optionBuf st) = true ->
  handle st e
  = Running
      (setBuf ""
         (setSort false
            (refreshOptionHeader
               (setOpts (<["sort" := VSortOpt (optionBuf st)]> (opts st)) st)))).
Proof.
  intros Hs Ht Hk Hv. unfold handle, sortPrompt.
  rewrite Hs, (isKey_true e Ht), Hk, Hv. reflexivity.
Qed.

Lemma limit_enter (st : UI) (e : Event) :
  waitingSortOption st = false -> waitingLimitOption st = true ->
  EvType e = EventKey -> Key e = KeyEnter ->
  handle st e
  = Running
      (refreshOptionHeader
         (setBuf ""
            (setLimit false
               match Sscanf_d (optionBuf st) with
               | Some n => setOpts (<["conns" := VInt n]> (opts st)) st
               | None => st
               end))).
Proof.
  intros Hs Hl Ht Hk. unfold handle, sortPrompt, limitPrompt.
  rewrite Hs, Hl, (isKey_true e Ht), Hk. reflexivity.
Qed.

Lemma code_byte (c : Z) : 0 <= c < 256 -> code (byte c) = c.
Proof.
  intros H. unfold code, byte. rewrite N_ascii_embedding by lia. lia.
Qed.

(** A one-byte character outside the space table stops the skipping. *)
Lemma SkipSpace_plain (c : Z) (rest : string) :
  0 <= c < 128 -> ~ 9 <= c <= 13 -> c <> 32 ->
  SkipSpace (String (byte c) rest) = Some (String (byte c) rest).
Proof.
  intros Hc Hctl Hsp. cbn [SkipSpace]. rewrite (code_byte c) by lia.
  assert ((c =? 10) = false) as -> by (apply Z.eqb_neq; lia).
  assert (spaceByte c = false) as ->.
  { unfold spaceByte. destruct (Z.leb_spec 9 c), (Z.leb_spec c 13); try lia;
      cbn [andb orb]; apply Z.eqb_neq; lia. }
  destruct rest as [ | d rest1]; [reflexivity | ].
  unfold spaceRune2. assert ((c =? 194) = false) as -> by (apply Z.eqb_neq; lia).
  cbn [andb]. destruct rest1 as [ | e rest2]; [reflexivity | ].
  unfold spaceRune3.
  assert ((c =? 225) = false) as -> by (apply Z.eqb_neq; lia).
  assert ((c =? 226) = false) as -> by (apply Z.eqb_neq; lia).
  assert ((c =? 227) = false) as -> by (apply Z.eqb_neq; lia).
  reflexivity.
Qed.

(** The key of a decimal digit. *)
Lemma digit_key (d : Z) :
  0 <= d <= 9 ->
  runeString (48 + d) = String (byte (48 + d)) "" /\
  digitOf (byte (48 + d)) = Some d /\
  Ascii.eqb (byte (48 + d)) "-" = false /\
  Ascii.eqb (byte (48 + d)) "+" = false /\
  48 + d <> 113.
Proof.
  intros H.
  assert (d = 0 \/ d = 1 \/ d = 2 \/ d = 3 \/ d = 4 \/ d = 5 \/ d = 6 \/ d = 7
          \/ d = 8 \/ d = 9) as Hd by lia.
  repeat destruct Hd as [-> | Hd]; try subst d;
    (repeat split; try reflexivity; discriminate).
Qed.

Lemma runes_digits_cons (d : Z) (ds : list Z) :
  0 <= d <= 9 ->
  runes (digitKeys (d :: ds)) = String (byte (48 + d)) (runes (digitKeys ds)).
Proof.
  intros H. cbn [digitKeys map runes fold_right].
  destruct (digit_key d H) as (-> & _). reflexivity.
Qed.

Lemma scanDigits_digits (ds : list Z) : forall a,
  Forall (fun d => 0 <= d <= 9) ds ->
  scanDigits (runes (digitKeys ds)) (Some a)
  = Some (fold_left (fun acc d => 10 * acc + d) ds a).
Proof.
  induction ds as [ | d ds IH]; intros a Hall; [reflexivity | ].
  inversion Hall as [ | ? ? Hd Hrest]; subst.
  rewrite (runes_digits_cons d ds Hd). cbn [scanDigits fold_left].
  destruct (digit_key d Hd) as (_ & -> & _). apply IH, Hrest.
Qed.

Lemma fold_digits_nonneg (ds : list Z) : forall a,
  0 <= a -> Forall (fun d => 0 <= d <= 9) ds ->
  0 <= fold_left (fun acc d => 10 * acc + d) ds a.
Proof.
  induction ds as [ | d ds IH]; intros a Ha Hall; [exact Ha | ].
  inversion Hall; subst. cbn [fold_left]. apply IH; [lia | assumption].
Qed.

(** [fmt.Sscanf] reads back the number that decimal digits write. *)
Lemma Sscanf_d_digits (ds : list Z) :
  ds <> [] -> Forall (fun d => 0 <= d <= 9) ds -> numeral ds <= maxInt64 ->
  Sscanf_d (runes (digitKeys ds)) = Some (numeral ds).
Proof.
  intros Hne Hall Hmax. destruct ds as [ | d ds]; [congruence | ].
  inversion Hall as [ | ? ? Hd Hrest]; subst.
  pose proof (fold_digits_nonneg (d :: ds) 0 (Z.le_refl 0) Hall) as Hpos.
  fold (numeral (d :: ds)) in Hpos.
  unfold Sscanf_d. rewrite (runes_digits_cons d ds Hd).
  destruct (digit_key d Hd) as (_ & Hdig & Hminus & Hplus & _).
  rewrite (SkipSpace_plain (48 + d)) by lia.
  rewrite Hminus, Hplus. cbn [scanDigits]. rewrite Hdig.
  rewrite (scanDigits_digits ds _ Hrest).
  change (fold_left (fun acc d0 => 10 * acc + d0) ds (10 * default 0 None + d))
    with (numeral (d :: ds)).
  unfold inInt64. unfold minInt64, maxInt64 in *.
  destruct (Z.leb_spec (- 2 ^ 63) (numeral (d :: ds))); [ | lia].
  destruct (Z.leb_spec (numeral (d :: ds)) (2 ^ 63 - 1)); [reflexivity | lia].
Qed.

(** X13. Choosing a sort key: from the Normal state with an empty
    buffer, ['o'], the characters of one of the six sort keys and enter
    store that key in the options as soon as enter is handled, close the
    prompt and empty the buffer; the view and the other options are as
    before. *)
Theorem typing_a_sort_key_commits_it (st : UI) (chars : list Z) :
  waitingSortOption st = false -> waitingLimitOption st = false ->
  optionBuf st = "" ->
  Forall (fun c => c <> 113) chars ->
  validSortOpt (runes chars) = true ->
  exists st',
    StartUI st (Ev (charKey 111) :: typed chars ++ [Ev (specialKey KeyEnter)])%list
    = Running st' /\
    opts st' = <["sort" := VSortOpt (runes chars)]> (opts st) /\
    inputMode st' = Normal /\
    optionBuf st' = "" /\
    viewMode st' = viewMode st.
Proof.
  intros Hs Hl Hb Hq Hv.
  pose proof (normal_key_o st (charKey 111) Hs Hl eq_refl eq_refl eq_refl) as E0.
  set (st0 := setSort true (emit (SortHeader (opts st !! "sort")) st)) in E0.
  destruct (prompt_typed chars st0) as (st1 & E1 & B1 & S1 & L1 & O1 & V1);
    [cbn [st0 setSort emit waitingSortOption waitingLimitOption];
     rewrite Hl; reflexivity | exact Hq | ].
  cbn [st0 setSort emit waitingSortOption waitingLimitOption optionBuf opts
       viewMode] in B1, S1, L1, O1, V1.
  rewrite Hb in B1. change ("" +:+ runes chars) with (runes chars) in B1.
  assert (validSortOpt (optionBuf st1) = true) as Hv1 by (rewrite B1; exact Hv).
  pose proof (sort_enter_valid st1 (specialKey KeyEnter) S1 eq_refl eq_refl Hv1) as E2.
  eexists. split.
  - cbn [StartUI step]. rewrite E0, StartUI_app, E1. cbn [StartUI step].
    rewrite E2. reflexivity.
  - unfold inputMode.
    cbn [setBuf setSort refreshOptionHeader emit setOpts opts waitingSortOption
         waitingLimitOption optionBuf viewMode].
    rewrite L1, Hl, B1, O1, V1. repeat split.
Qed.

Lemma typing_a_sort_key_commits_it_witness :
  validSortOpt (runes [115; 117; 98; 115]) = true /\
  exists st',
    StartUI (initUI sampleOpts)
      (Ev (charKey 111) :: typed [115; 117; 98; 115] ++ [Ev (specialKey KeyEnter)])%list
    = Running st' /\
    opts st' = <["sort" := VSortOpt (runes [115; 117; 98; 115])]> sampleOpts /\
    inputMode st' = Normal /\
    optionBuf st' = "" /\
    viewMode st' = "top".
Proof.
  split; [reflexivity | ].
  apply (typing_a_sort_key_commits_it (initUI sampleOpts) [115; 117; 98; 115]);
    try reflexivity.
  repeat constructor; discriminate.
Defined.

(** X14. Setting the limit: from the Normal state with an empty buffer,
    ['n'], the digits of a number that fits an [int] and enter store that
    number as the connection limit, close the prompt and empty the buffer;
    the view and the other options are as before. *)
Theorem typing_a_number_sets_the_limit (st : UI) (ds : list Z) :
  waitingSortOption st = false -> waitingLimitOption st = false ->
  optionBuf st = "" ->
  ds <> [] -> Forall (fun d => 0 <= d <= 9) ds -> numeral ds <= maxInt64 ->
  exists st',
    StartUI st
      (Ev (charKey 110) :: typed (digitKeys ds) ++ [Ev (specialKey KeyEnter)])%list
    = Running st' /\
    opts st' = <["conns" := VInt (numeral ds)]> (opts st) /\
    inputMode st' = Normal /\
    optionBuf st' = "" /\
    viewMode st' = viewMode st.
Proof.
  intros Hs Hl Hb Hne Hds Hmax.
  pose proof (normal_key_n st (charKey 110) Hs Hl eq_refl eq_refl eq_refl) as E0.
  set (st0 := setLimit true (emit (LimitHeader (opts st !! "conns")) st)) in E0.
  assert (Forall (fun c => c <> 113) (digitKeys ds)) as Hq.
  { unfold digitKeys. apply Forall_map.
    eapply Forall_impl; [exact Hds | ]. intros d Hd. apply (digit_key d Hd). }
  destruct (prompt_typed (digitKeys ds) st0) as (st1 & E1 & B1 & S1 & L1 & O1 & V1);
    [cbn [st0 setLimit emit waitingSortOption waitingLimitOption];
     rewrite Hs; reflexivity | exact Hq | ].
  cbn [st0 setLimit emit waitingSortOption waitingLimitOption optionBuf opts
       viewMode] in B1, S1, L1, O1, V1.
  rewrite Hb in B1.
  change ("" +:+ runes (digitKeys ds)) with (runes (digitKeys ds)) in B1.
  rewrite Hs in S1.
  pose proof (limit_enter st1 (specialKey KeyEnter) S1 L1 eq_refl eq_refl) as E2.
  rewrite B1, (Sscanf_d_digits ds Hne Hds Hmax) in E2.
  eexists. split.
  - cbn [StartUI step]. rewrite E0, StartUI_app, E1. cbn [StartUI step].
    rewrite E2. reflexivity.
  - unfold inputMode.
    cbn [setBuf setLimit refreshOptionHeader emit setOpts opts waitingSortOption
         waitingLimitOption optionBuf viewMode].
    rewrite S1, O1, V1. repeat split.
Qed.

Lemma typing_a_number_sets_the_limit_witness :
  exists st',
    StartUI (initUI sampleOpts)
      (Ev (charKey 110) :: typed (digitKeys [2; 5; 0]) ++ [Ev (specialKey KeyEnter)])%list
    = Running st' /\
    opts st' = <["conns" := VInt (numeral [2; 5; 0])]> sampleOpts /\
    inputMode st' = Normal /\
    optionBuf st' = "" /\
    viewMode st' = "top".
Proof.
  apply (typing_a_number_sets_the_limit (initUI sampleOpts) [2; 5; 0]);
    try reflexivity.
  - discriminate.
  - repeat constructor; lia.
  - vm_compute. discriminate.
Defined.

(** [s[:len(s)-1]] on a string of several bytes, and on one byte. *)
Lemma dropLast_cons (c : ascii) (s : string) :
  s <> "" -> dropLast (String c s) = String c (dropLast s).
Proof.
  intros Hs. unfold dropLast. destruct s as [ | d s]; [congruence | ].
  cbn [String.length Nat.sub]. rewrite Nat.sub_0_r. reflexivity.
Qed.

Lemma append_not_empty (a b : string) : b <> "" -> a +:+ b <> "".
Proof. intros Hb. destruct a; [exact Hb | discriminate]. Qed.

Lemma dropLast_append (a b : string) :
  b <> "" -> dropLast (a +:+ b) = a +:+ dropLast b.
Proof.
  intros Hb. induction a as [ | c a IH]; [reflexivity | ].
  change (String c a +:+ b) with (String c (a +:+ b)).
  rewrite dropLast_cons by (apply append_not_empty, Hb).
  rewrite IH. reflexivity.
Qed.

Lemma append_same (a b : string) : a +:+ b = a -> b = "".
Proof.
  induction a as [ | c a IH]; [trivial | ].
  change (String c a +:+ b) with (String c (a +:+ b)).
  intros H. injection H as H. auto.
Qed.

(** Backspace in an open prompt whose buffer is not empty. *)
Lemma prompt_backspace (st : UI) (e : Event) :
  xorb (waitingSortOption st) (waitingLimitOption st) = true ->
  optionBuf st <> "" ->
  EvType e = EventKey -> Key e = KeyBackspace \/ Key e = KeyBackspace2 ->
  Ch e <> 113 ->
  exists st',
    handle st e = Running st' /\
    optionBuf st' = dropLast (optionBuf st) /\
    waitingSortOption st' = waitingSortOption st /\
    waitingLimitOption st' = waitingLimitOption st.
Proof.
  intros Hx Hb Ht Hk Hq.
  assert ((Key e =? KeyEnter) = false) as HE
    by (destruct Hk as [-> | ->]; reflexivity).
  assert ((Key e =? KeySpace) = false) as HS
    by (destruct Hk as [-> | ->]; reflexivity).
  assert (((Key e =? KeyBackspace) || (Key e =? KeyBackspace2)) = true) as HB
    by (destruct Hk as [-> | ->]; reflexivity).
  assert (optionBuf (lineEdit st e) = dropLast (optionBuf st)) as HL.
  { unfold lineEdit. rewrite (isKey_true e Ht), HB.
    destruct (optionBuf st) as [ | c s] eqn:Eb; [congruence | ]. reflexivity. }
  destruct (prompts_edit st e Hx) as (st1 & st2 & E1 & E2 & F1 & F2 & B).
  { rewrite HE. apply andb_false_r. }
  destruct (keys_prompt st2 e Ht HS) as (G1 & G2 & G3).
  { rewrite F1, F2. exact Hx. }
  exists (onResize (onSpace (onN (onO st2 e) e) e) e). split.
  - unfold handle. rewrite E1, E2, (isKey_true e Ht).
    apply Z.eqb_neq in Hq. rewrite Hq. reflexivity.
  - rewrite G1, G2, G3, B, HL, F1, F2. repeat split.
Qed.

(** X15. Backspace deletes one byte, not one character: in an open
    prompt, a character key followed by backspace leaves the buffer with
    the encoding of the character less its last byte appended.  For a
    one-byte character (0 to 127) the buffer is what it was; for any other
    character the first bytes of its encoding stay behind. *)
Theorem char_then_backspace (st : UI) (c : Z) (e : Event) :
  xorb (waitingSortOption st) (waitingLimitOption st) = true ->
  c <> 113 ->
  EvType e = EventKey -> Key e = KeyBackspace \/ Key e = KeyBackspace2 ->
  Ch e = 0 ->
  exists st',
    StartUI st [Ev (charKey c); Ev e] = Running st' /\
    optionBuf st' = optionBuf st +:+ dropLast (runeString c) /\
    (0 <= c < 128 -> optionBuf st' = optionBuf st) /\
    (c < 0 \/ 128 <= c -> optionBuf st' <> optionBuf st) /\
    waitingSortOption st' = waitingSortOption st /\
    waitingLimitOption st' = waitingLimitOption st.
Proof.
  intros Hx Hc Ht Hk Hch.
  destruct (prompt_char st (charKey c) Hx eq_refl eq_refl Hc)
    as (st1 & E1 & B1 & S1 & L1 & _).
  cbn [charKey Ch] in B1.
  destruct (prompt_backspace st1 e) as (st2 & E2 & B2 & S2 & L2);
    [rewrite S1, L1; exact Hx
    | rewrite B1; apply append_not_empty, runeString_not_empty
    | exact Ht | exact Hk | rewrite Hch; discriminate | ].
  exists st2. split; [cbn [StartUI step]; rewrite E1, E2; reflexivity | ].
  rewrite B2, B1, (dropLast_append _ _ (runeString_not_empty c)), S2, S1, L2, L1.
  split; [reflexivity | ]. split; [ | split; [ | split; reflexivity]].
  - intros [H0 H128]. unfold runeString.
    destruct (Z.ltb_spec c 0); [lia | ].
    destruct (Z.ltb_spec 1114111 c); [lia | ].
    destruct (Z.leb_spec 55296 c); [lia | ].
    destruct (Z.ltb_spec c 128); [ | lia].
    cbn [orb andb]. apply append_empty_r.
  - intros Hout Heq. apply append_same in Heq. revert Heq. unfold runeString.
    destruct (Z.ltb_spec c 0); [discriminate | ].
    destruct (1114111 <? c); [discriminate | ].
    destruct ((55296 <=? c) && (c <=? 57343)); [discriminate | ].
    cbn [orb].
    destruct (Z.ltb_spec c 128); [lia | ].
    destruct (c <? 2048); [discriminate | ].
    destruct (c <? 65536); discriminate.
Qed.

Lemma char_then_backspace_witness :
  (exists st',
     StartUI (mkUI sampleOpts "top" true false "ci" 0 0 [])
       [Ev (charKey 100); Ev (specialKey KeyBackspace2)] = Running st' /\
     optionBuf st' = "ci" +:+ dropLast (runeString 100) /\
     (0 <= 100 < 128 -> optionBuf st' = "ci") /\
     (100 < 0 \/ 128 <= 100 -> optionBuf st' <> "ci") /\
     waitingSortOption st' = true /\
     waitingLimitOption st' = false)
  /\
  (exists st',
     StartUI (mkUI sampleOpts "top" true false "ci" 0 0 [])
       [Ev (charKey 233); Ev (specialKey KeyBackspace2)] = Running st' /\
     optionBuf st' = "ci" +:+ dropLast (runeString 233) /\
     (0 <= 233 < 128 -> optionBuf st' = "ci") /\
     (233 < 0 \/ 128 <= 233 -> optionBuf st' <> "ci") /\
     waitingSortOption st' = true /\
     waitingLimitOption st' = false).
Proof.
  split.
  - apply (char_then_backspace (mkUI sampleOpts "top" true false "ci" 0 0 []) 100
             (specialKey KeyBackspace2));
      [reflexivity | discriminate | reflexivity | right; reflexivity | reflexivity].
  - apply (char_then_backspace (mkUI sampleOpts "top" true false "ci" 0 0 []) 233
             (specialKey KeyBackspace2));
      [reflexivity | discriminate | reflexivity | right; reflexivity | reflexivity].
Defined.

(** X16. ['q'] quits from every state: whatever the view, whether a
    prompt is open or not and whatever the buffer holds, the key of
    character ['q'] ends the process with status 0. *)
Theorem q_quits_from_every_state (st : UI) (e : Event) :
  EvType e = EventKey -> Ch e = 113 -> Key e <> KeyEnter ->
  handle st e = Exit 0.
Proof.
  intros Ht Hc Hk.
  destruct (prompts_fall_through st e) as (st1 & st2 & E1 & E2 & _).
  { apply Z.eqb_neq in Hk. rewrite Hk. apply andb_false_r. }
  unfold handle. rewrite E1, E2, (isKey_true e Ht), Hc. reflexivity.
Qed.

Lemma q_quits_from_every_state_witness :
  handle (mkUI sampleOpts "dashboard" false true "12" 0 1 []) (charKey 113) = Exit 0.
Proof.
  apply (q_quits_from_every_state
           (mkUI sampleOpts "dashboard" false true "12" 0 1 []) (charKey 113));
    [reflexivity | reflexivity | discriminate].
Defined.

(** Space in the Normal state goes to the toggle alone. *)
Lemma normal_space (st : UI) (e : Event) :
  waitingSortOption st = false -> waitingLimitOption st = false ->
  EvType e = EventKey -> Key e = KeySpace -> Ch e = 0 ->
  handle st e = Running (onSpace st e).
Proof.
  intros Hs Hl Ht Hk Hc. unfold handle, sortPrompt, limitPrompt.
  rewrite Hs, Hl. unfold onResize, onN, onO.
  rewrite Ht, (isKey_true e Ht), Hc. reflexivity.
Qed.

(** X17. The view toggle is an involution: in the Normal state, pressing
    space twice brings back the view that was shown, and leaves the prompts
    closed and the options and the buffer as they were. *)
Theorem space_twice_restores_the_view (st : UI) (e : Event) :
  waitingSortOption st = false -> waitingLimitOption st = false ->
  viewMode st = "top" \/ viewMode st = "dashboard" ->
  EvType e = EventKey -> Key e = KeySpace -> Ch e = 0 ->
  exists st1 st2,
    handle st e = Running st1 /\ handle st1 e = Running st2 /\
    viewMode st1 <> viewMode st /\
    viewMode st2 = viewMode st /\
    inputMode st2 = Normal /\
    opts st2 = opts st /\
    optionBuf st2 = optionBuf st.
Proof.
  intros Hs Hl Hv Ht Hk Hc.
  pose proof (normal_space st e Hs Hl Ht Hk Hc) as E1.
  destruct (onSpace_toggles st e Ht Hk) as (B1 & Vtop & Vdash).
  destruct (onSpace_frame st e) as (O1 & _).
  set (st1 := onSpace st e) in *.
  assert (waitingSortOption st1 = false /\ waitingLimitOption st1 = false
          /\ viewMode st1 <> viewMode st
          /\ (viewMode st1 = "top" \/ viewMode st1 = "dashboard")) as (S1 & L1 & N1 & V1).
  { destruct Hv as [Hv | Hv].
    - destruct (Vtop Hv) as (-> & -> & ->). rewrite Hv.
      repeat split; [discriminate | right; reflexivity].
    - destruct (Vdash Hv) as (-> & -> & ->). rewrite Hv, Hs, Hl.
      repeat split; [discriminate | left; reflexivity]. }
  pose proof (normal_space st1 e S1 L1 Ht Hk Hc) as E2.
  destruct (onSpace_toggles st1 e Ht Hk) as (B2 & Vtop2 & Vdash2).
  destruct (onSpace_frame st1 e) as (O2 & _).
  exists st1, (onSpace st1 e).
  split; [exact E1 | ]. split; [exact E2 | ]. split; [exact N1 | ].
  unfold inputMode. rewrite O2, O1, B2, B1.
  destruct Hv as [Hv | Hv].
  - destruct (Vtop Hv) as (Hv1 & _).
    destruct (Vdash2 Hv1) as (-> & -> & ->). rewrite S1, L1, Hv. repeat split.
  - destruct (Vdash Hv) as (Hv1 & _).
    destruct (Vtop2 Hv1) as (-> & -> & ->). rewrite Hv. repeat split.
Qed.

Lemma space_twice_restores_the_view_witness :
  exists st1 st2,
    handle (initUI sampleOpts) (specialKey KeySpace) = Running st1 /\
    handle st1 (specialKey KeySpace) = Running st2 /\
    viewMode st1 <> "top" /\
    viewMode st2 = "top" /\
    inputMode st2 = Normal /\
    opts st2 = sampleOpts /\
    optionBuf st2 = "".
Proof.
  apply (space_twice_restores_the_view (initUI sampleOpts) (specialKey KeySpace));
    try reflexivity.
  left. reflexivity.
Defined.

(** X18. In an open prompt an event that is not a key event is taken for
    typing: a resize (or mouse or error) event goes through the appending
    branch of the prompt, so the string of its character field, a zero byte
    for the zero rune, is added to the buffer; the prompt stays open and
    the options are untouched. *)
Theorem event_without_key_is_typed (st : UI) (e : Event) :
  xorb (waitingSortOption st) (waitingLimitOption st) = true ->
  EvType e <> EventKey ->
  exists st',
    handle st e = Running st' /\
    optionBuf st' = optionBuf st +:+ runeString (Ch e) /\
    (Ch e = 0 -> optionBuf st' = optionBuf st +:+ String (byte 0) "") /\
    waitingSortOption st' = waitingSortOption st /\
    waitingLimitOption st' = waitingLimitOption st /\
    opts st' = opts st.
Proof.
  intros Hx Ht.
  assert (isKey e = false) as Hk
    by (unfold isKey; destruct (EvType e); congruence).
  assert (isKey e && (Key e =? KeyEnter) = false) as HE by (rewrite Hk; reflexivity).
  assert (lineEdit st e = setBuf (optionBuf st +:+ runeString (Ch e)) st) as HL
    by (unfold lineEdit; rewrite Hk; reflexivity).
  destruct (prompts_edit st e Hx HE) as (st1 & st2 & E1 & E2 & F1 & F2 & B).
  destruct (prompts_fall_through st e HE) as (st1' & st2' & E1' & E2' & Ho & _).
  rewrite E1 in E1'. injection E1' as <-. rewrite E2 in E2'. injection E2' as <-.
  rewrite HL in B. cbn [setBuf optionBuf] in B.
  destruct (onResize_frame st2 e) as (O3 & _ & B3 & S3 & L3).
  exists (onResize st2 e). split.
  - unfold handle. rewrite E1, E2. unfold onSpace, onN, onO. rewrite Hk. reflexivity.
  - rewrite B3, S3, L3, O3, B, F1, F2, Ho.
    split; [reflexivity | ]. split; [intros ->; reflexivity | repeat split].
Qed.

Lemma event_without_key_is_typed_witness :
  exists st',
    handle (mkUI sampleOpts "dashboard" true false "su" 0 0 []) (mkEvent EventResize 0 0)
    = Running st' /\
    optionBuf st' = "su" +:+ runeString 0 /\
    (Ch (mkEvent EventResize 0 0) = 0 -> optionBuf st' = "su" +:+ String (byte 0) "") /\
    waitingSortOption st' = true /\
    waitingLimitOption st' = false /\
    opts st' = sampleOpts.
Proof.
  apply (event_without_key_is_typed
           (mkUI sampleOpts "dashboard" true false "su" 0 0 [])
           (mkEvent EventResize 0 0));
    [reflexivity | discriminate].
Defined.

(** X19. A prompt that space closes leaves its buffer behind, and ['o']
    does not clear it: from the Normal state in the top view with an empty
    buffer, ['o'], some characters, space and ['o'] again end in the sort
    prompt, on the dashboard, with the buffer holding the characters typed
    before and the zero byte of the space key. *)
Theorem closed_prompt_leaves_its_buffer (st : UI) (chars : list Z) :
  waitingSortOption st = false -> waitingLimitOption st = false ->
  viewMode st = "top" -> optionBuf st = "" ->
  Forall (fun c => c <> 113) chars ->
  exists st',
    StartUI st
      (Ev (charKey 111) :: typed chars
       ++ [Ev (specialKey KeySpace); Ev (charKey 111)])%list
    = Running st' /\
    inputMode st' = EnteringSort /\
    viewMode st' = "dashboard" /\
    optionBuf st' = runes chars +:+ String (byte 0) "" /\
    opts st' = opts st.
Proof.
  intros Hs Hl Hv Hb Hq.
  pose proof (normal_key_o st (charKey 111) Hs Hl eq_refl eq_refl eq_refl) as E0.
  set (st0 := setSort true (emit (SortHeader (opts st !! "sort")) st)) in E0.
  destruct (prompt_typed chars st0) as (st1 & E1 & B1 & S1 & L1 & O1 & V1);
    [cbn [st0 setSort emit waitingSortOption waitingLimitOption];
     rewrite Hl; reflexivity | exact Hq | ].
  cbn [st0 setSort emit waitingSortOption waitingLimitOption optionBuf opts
       viewMode] in B1, S1, L1, O1, V1.
  rewrite Hb in B1. change ("" +:+ runes chars) with (runes chars) in B1.
  rewrite Hl in L1. rewrite Hv in V1.
  destruct (sort_prompt_space st1 (specialKey KeySpace) eq_refl S1 L1 eq_refl eq_refl)
    as (st2 & E2 & B2 & Vtop & _).
  destruct (Vtop V1) as (V2 & M2).
  assert (waitingSortOption st2 = false /\ waitingLimitOption st2 = false)
    as [S2 L2].
  { revert M2. unfold inputMode.
    destruct (waitingSortOption st2); [discriminate | ].
    destruct (waitingLimitOption st2); [discriminate | auto]. }
  assert (opts st2 = opts st1) as O2.
  { revert E2. unfold handle.
    destruct (prompts_fall_through st1 (specialKey KeySpace) eq_refl)
      as (x1 & x2 & -> & -> & Hx & _).
    cbn [isKey specialKey EvType Ch andb Z.eqb]. intros [= <-].
    rewrite keys_opts. exact Hx. }
  pose proof (normal_key_o st2 (charKey 111) S2 L2 eq_refl eq_refl eq_refl) as E3.
  eexists. split.
  - cbn [StartUI step]. rewrite E0, StartUI_app, E1. cbn [StartUI step].
    rewrite E2, E3. reflexivity.
  - unfold inputMode. cbn [setSort emit waitingSortOption viewMode optionBuf opts].
    rewrite V2, B2, B1, O2, O1. repeat split.
Qed.

Lemma closed_prompt_leaves_its_buffer_witness :
  exists st',
    StartUI (initUI sampleOpts)
      (Ev (charKey 111) :: typed [115; 117]
       ++ [Ev (specialKey KeySpace); Ev (charKey 111)])%list
    = Running st' /\
    inputMode st' = EnteringSort /\
    viewMode st' = "dashboard" /\
    optionBuf st' = runes [115; 117] +:+ String (byte 0) "" /\
    opts st' = sampleOpts.
Proof.
  apply (closed_prompt_leaves_its_buffer (initUI sampleOpts) [115; 117]);
    try reflexivity.
  repeat constructor; discriminate.
Defined.

(** The byte of a one-byte character differs from every other byte. *)
Lemma byte_eqb_neq (c : Z) (x : ascii) :
  0 <= c < 256 -> Z.of_N (N_of_ascii x) <> c -> Ascii.eqb (byte c) x = false.
Proof.
  intros Hc Hx. apply Ascii.eqb_neq. intros Heq. apply Hx. rewrite <- Heq.
  unfold byte. rewrite N_ascii_embedding by lia. lia.
Qed.

(** A buffer that starts with a one-byte character that is no space, no
    sign and no digit does not scan as a number. *)
Lemma Sscanf_d_no_number (c : Z) (s : string) :
  0 <= c < 128 ->
  ~ 9 <= c <= 13 -> c <> 32 -> c <> 43 -> c <> 45 -> ~ 48 <= c <= 57 ->
  Sscanf_d (String (byte c) s) = None.
Proof.
  intros Hc Hctl H32 H43 H45 Hd. unfold Sscanf_d.
  rewrite (SkipSpace_plain c s Hc Hctl H32).
  rewrite (byte_eqb_neq c "-"), (byte_eqb_neq c "+")
    by (try lia; vm_compute; congruence).
  cbn [scanDigits]. unfold digitOf, byte. rewrite N_ascii_embedding by lia.
  rewrite Z2N.id by lia.
  destruct (Z.leb_spec 48 c); [ | reflexivity].
  destruct (Z.leb_spec c 57); [lia | reflexivity].
Qed.

(** X20. A limit that is no number is dropped without a word: from the
    Normal state with an empty buffer, ['n'], characters of which the first
    is a one-byte character that is no space of the scanner (tab, line
    feed, vertical tab, form feed, carriage return, blank), no sign and no
    digit, and enter leave the connection limit and every other option as
    they were, close the prompt and empty the buffer. *)
Theorem typing_no_number_keeps_the_limit (st : UI) (c : Z) (chars : list Z) :
  waitingSortOption st = false -> waitingLimitOption st = false ->
  optionBuf st = "" ->
  0 <= c < 128 ->
  ~ 9 <= c <= 13 -> c <> 32 -> c <> 43 -> c <> 45 -> ~ 48 <= c <= 57 ->
  Forall (fun c => c <> 113) (c :: chars) ->
  exists st',
    StartUI st (Ev (charKey 110) :: typed (c :: chars) ++ [Ev (specialKey KeyEnter)])%list
    = Running st' /\
    opts st' = opts st /\
    inputMode st' = Normal /\
    optionBuf st' = "" /\
    viewMode st' = viewMode st.
Proof.
  intros Hs Hl Hb Hc Hctl H32 H43 H45 Hd Hq.
  pose proof (normal_key_n st (charKey 110) Hs Hl eq_refl eq_refl eq_refl) as E0.
  set (st0 := setLimit true (emit (LimitHeader (opts st !! "conns")) st)) in E0.
  destruct (prompt_typed (c :: chars) st0) as (st1 & E1 & B1 & S1 & L1 & O1 & V1);
    [cbn [st0 setLimit emit waitingSortOption waitingLimitOption];
     rewrite Hs; reflexivity | exact Hq | ].
  cbn [st0 setLimit emit waitingSortOption waitingLimitOption optionBuf opts
       viewMode] in B1, S1, L1, O1, V1.
  rewrite Hb in B1. rewrite Hs in S1.
  assert (optionBuf st1 = String (byte c) (runes chars)) as B1'.
  { rewrite B1. cbn [runes fold_right]. unfold runeString.
    destruct (Z.ltb_spec c 0); [lia | ].
    destruct (Z.ltb_spec 1114111 c); [lia | ].
    destruct (Z.leb_spec 55296 c); [lia | ].
    destruct (Z.ltb_spec c 128); [reflexivity | lia]. }
  pose proof (limit_enter st1 (specialKey KeyEnter) S1 L1 eq_refl eq_refl) as E2.
  rewrite B1', (Sscanf_d_no_number c _ Hc Hctl H32 H43 H45 Hd) in E2.
  eexists. split.
  - cbn [StartUI step]. rewrite E0, StartUI_app, E1. cbn [StartUI step].
    rewrite E2. reflexivity.
  - unfold inputMode.
    cbn [setBuf setLimit refreshOptionHeader emit opts waitingSortOption
         waitingLimitOption optionBuf viewMode].
    rewrite S1, O1, V1. repeat split.
Qed.

Lemma typing_no_number_keeps_the_limit_witness :
  exists st',
    StartUI (initUI sampleOpts)
      (Ev (charKey 110) :: typed [97; 98; 99] ++ [Ev (specialKey KeyEnter)])%list
    = Running st' /\
    opts st' = sampleOpts /\
    inputMode st' = Normal /\
    optionBuf st' = "" /\
    viewMode st' = "top".
Proof.
  apply (typing_no_number_keeps_the_limit (initUI sampleOpts) 97 [98; 99]);
    try reflexivity; try lia.
  repeat constructor; discriminate.
Defined.

(** The scanner skips a form feed: a form feed and then a digit set the
    limit to the digit. *)
Example form_feed_then_digit :
  match StartUI (initUI sampleOpts)
          (Ev (charKey 110) :: typed [12; 53] ++ [Ev (specialKey KeyEnter)])%list with
  | Running st => opts st !! "conns" = Some (VInt 5)
  | _ => False
  end.
Proof. vm_compute. reflexivity. Qed.

(* ------------------------------------------------------------------ *)
(** ** The notice of an invalid sort key on the screen *)

(** C7, evaluated on the code.  Enter in the sort prompt with the one-byte
    buffer ["x"], which is no sort key: the options are untouched, the
    notice is printed and, after the sleep of one second, the prompt is
    closed and the buffer emptied; but the notice takes 23 columns (15 of
    the label, 7 of padding, 1 of the buffer) and the line is then blanked
    over 18 + 2 + 2 = 22 columns, so the ["x"] in column 23 stays on the
    screen. *)
Theorem one_byte_notice_is_not_masked :
  let st := mkUI sampleOpts "top" true false "x" 0 0 [] in
  validSortOpt (optionBuf st) = false /\
  StartUI st [Ev (specialKey KeyEnter); NoticeShows; NoticeWakes]
  = Running (mkUI sampleOpts "top" false false "" 0 0
               [InvalidOrder "       " "x"; Sleep (1 * Second); ClearLine 22]) /\
  String.length (noticeText "       " "x") = 23%nat /\
  String.get 22 (noticeText "       " "x") = Some "x"%char /\
  masked 22 (noticeText "       " "x") = false.
Proof. repeat split; vm_compute; reflexivity. Qed.

Lemma length_append (a b : string) :
  String.length (a +:+ b) = (String.length a + String.length b)%nat.
Proof.
  induction a as [ | c a IH]; [reflexivity | ].
  change (String c a +:+ b) with (String c (a +:+ b)).
  cbn [String.length]. rewrite IH. reflexivity.
Qed.

Lemma masked_short (text : string) : forall blanks,
  (String.length text <= blanks)%nat -> masked blanks text = true.
Proof.
  induction text as [ | c text IH]; intros blanks H; [reflexivity | ].
  cbn [String.length] in H. destruct blanks as [ | n]; [lia | ].
  cbn [masked]. apply IH. lia.
Qed.

(** The blanks of [refreshOptionHeader] hide the notice, unless the buffer
    is one byte long. *)
Lemma notice_masked (buf : string) :
  String.length buf <> 1%nat ->
  masked (18 + 2 + 2 * String.length buf)
    (noticeText (if (String.length buf <? 5)%nat then "       " else "") buf)
  = true.
Proof.
  intros H1. destruct buf as [ | c buf]; [reflexivity | ].
  apply masked_short. unfold noticeText. rewrite !length_append.
  destruct (Nat.ltb_spec (String.length (String c buf)) 5) as [H5 | H5];
    cbn [String.length] in *; lia.
Qed.

(** X21. Enter in the sort prompt with a buffer that is no sort key and
    is not exactly one byte long, followed by the two steps of the notice
    goroutine with no other event between them: the notice is printed with
    the buffer, the goroutine sleeps one second, and the line is then
    blanked over columns that hide the whole notice; the prompt is closed,
    the buffer is empty, and the options and the view are as they were. *)
Theorem invalid_order_notice_comes_and_goes (st : UI) (e : Event) :
  waitingSortOption st = true ->
  waitingLimitOption st = false ->
  EvType e = EventKey ->
  Key e = KeyEnter ->
  validSortOpt (optionBuf st) = false ->
  String.length (optionBuf st) <> 1%nat ->
  exists padding blanks st',
    StartUI st [Ev e; NoticeShows; NoticeWakes] = Running st' /\
    screen st'
    = (screen st ++ [InvalidOrder padding (optionBuf st);
                     Sleep (1 * Second);
                     ClearLine blanks])%list /\
    masked blanks (noticeText padding (optionBuf st)) = true /\
    inputMode st' = Normal /\
    optionBuf st' = "" /\
    opts st' = opts st /\
    viewMode st' = viewMode st.
Proof.
  intros Hs Hl Ht Hk Hv H1.
  destruct (invalid_sort_key_is_rejected st e Hs Hl Ht Hk Hv) as (_ & E & _).
  eexists. eexists. eexists. split; [exact E | ].
  cbn [screen optionBuf opts viewMode]. unfold inputMode.
  cbn [waitingSortOption waitingLimitOption].
  split; [reflexivity | ]. split; [apply notice_masked, H1 | repeat split].
Qed.

Lemma invalid_order_notice_comes_and_goes_witness :
  exists padding blanks st',
    StartUI (mkUI sampleOpts "top" true false "bogus" 0 0 [])
      [Ev (specialKey KeyEnter); NoticeShows; NoticeWakes] = Running st' /\
    screen st'
    = ([] ++ [InvalidOrder padding "bogus"; Sleep (1 * Second); ClearLine blanks])%list /\
    masked blanks (noticeText padding "bogus") = true /\
    inputMode st' = Normal /\
    optionBuf st' = "" /\
    opts st' = sampleOpts /\
    viewMode st' = "top".
Proof.
  apply (invalid_order_notice_comes_and_goes
           (mkUI sampleOpts "top" true false "bogus" 0 0 []) (specialKey KeyEnter));
    try reflexivity.
  cbn [optionBuf String.length]. lia.
Defined.
